(** * The Dify issue moderator: decision engine

    A shallow embedding of [scripts/moderate_issue.py] (the moderation
    decision engine of the [dify-issue-moderator] skill) and the properties
    its specification states about it.

    Python values are modelled as follows.
    - [str] is a sequence of Unicode code points: [pystr := list N].
    - [int] is [Z] (or [nat] for counts and lengths).
    - The quotient [cjk_count / total] of [cjk_ratio] is kept as the exact
      rational [Q].  Python rounds it to the nearest double; rounding is
      monotone, so the comparison with the threshold [0.20] and [max] agree
      with the exact ones for every text shorter than 2^50 characters.
      Where the ratio is printed, it is rounded to the double first.
    - [list] is [list]; the constant sets of the module are lists used only
      through membership.
    - A function that can raise returns a sum: the value on the left, the
      exception on the right.  The one exception the decision engine can
      raise is the [ValueError] of [int] on a literal with more digits
      than the interpreter allows.
    - The parts of the Python runtime that are tables of the Unicode
      character database (alphanumeric characters, decimal digits, case
      mappings of whole strings), the formatting of a float and the
      interpreter's limit on the digits of an integer literal are fields of
      the class [PyRuntime]: every theorem holds for every instance.  The
      instance [ascii_runtime] has the ASCII part of the tables, formats
      floats as CPython does and has CPython's default limit; it is used to
      evaluate the code on concrete issues. *)

From Stdlib Require Import List NArith ZArith QArith Bool Arith Lia.
From Stdlib Require Import SpecFloat.
From Stdlib Require String Ascii.
Import String.StringSyntax.
Delimit Scope string_scope with string.
Import ListNotations.

Set Implicit Arguments.
Close Scope Q_scope.

(** ** Strings *)

Definition cp := N.
Definition pystr := list cp.

(** [lit "abc"] is the Python literal ['abc'] (ASCII only). *)
Fixpoint lit (s : String.string) : pystr :=
  match s with
  | String.EmptyString => []
  | String.String a s' => Ascii.N_of_ascii a :: lit s'
  end.

Definition NL : cp := 10%N.
Definition nl : pystr := [NL].

Fixpoint str_eqb (a b : pystr) : bool :=
  match a, b with
  | [], [] => true
  | x :: a', y :: b' => N.eqb x y && str_eqb a' b'
  | _, _ => false
  end.

(** [x in xs] for a list, tuple or set of strings. *)
Definition str_in (x : pystr) (xs : list pystr) : bool := existsb (str_eqb x) xs.

Local Open Scope N_scope.

Definition between (lo hi c : cp) : bool := N.leb lo c && N.leb c hi.

(** [ch.isspace()], which is also [\s] of [re] on [str] patterns and the
    set [str.strip()] removes: Unicode category Zs or bidirectional class
    WS, B or S. *)
Definition isspace (c : cp) : bool :=
  between 0x09 0x0D c || between 0x1C 0x1F c || N.eqb c 0x20 || N.eqb c 0x85
  || N.eqb c 0xA0 || N.eqb c 0x1680 || between 0x2000 0x200A c
  || N.eqb c 0x2028 || N.eqb c 0x2029 || N.eqb c 0x202F || N.eqb c 0x205F
  || N.eqb c 0x3000.

(** The line boundaries of [str.splitlines()]. *)
Definition is_linebreak (c : cp) : bool :=
  between 0x0A 0x0D c || between 0x1C 0x1E c || N.eqb c 0x85
  || N.eqb c 0x2028 || N.eqb c 0x2029.

Local Close Scope N_scope.

(** [text.splitlines()]: ["\r\n"] is one boundary, and a final boundary
    opens no empty last line. *)
Fixpoint splitlines_from (cur : pystr) (s : pystr) : list pystr :=
  match s with
  | [] => match cur with [] => [] | _ => [rev cur] end
  | c :: s' =>
      if N.eqb c 0x0D%N then
        match s' with
        | c2 :: s'' =>
            if N.eqb c2 0x0A%N then rev cur :: splitlines_from [] s''
            else rev cur :: splitlines_from [] s'
        | [] => [rev cur]
        end
      else if is_linebreak c then rev cur :: splitlines_from [] s'
      else splitlines_from (c :: cur) s'
  end.

Definition splitlines (s : pystr) : list pystr := splitlines_from [] s.

(** [sep.join(items)]. *)
Fixpoint join (sep : pystr) (items : list pystr) : pystr :=
  match items with
  | [] => []
  | [x] => x
  | x :: rest => x ++ sep ++ join sep rest
  end.

Fixpoint lstrip (s : pystr) : pystr :=
  match s with
  | c :: s' => if isspace c then lstrip s' else s
  | [] => []
  end.

Definition rstrip (s : pystr) : pystr := rev (lstrip (rev s)).

(** [s.strip()]. *)
Definition strip (s : pystr) : pystr := rstrip (lstrip s).

Fixpoint startswith (s p : pystr) : bool :=
  match p, s with
  | [], _ => true
  | x :: p', y :: s' => N.eqb x y && startswith s' p'
  | _ :: _, [] => false
  end.

(** [p in s] for strings. *)
Fixpoint contains (s p : pystr) : bool :=
  startswith s p || match s with [] => false | _ :: s' => contains s' p end.

(** [s.replace(old, "")] for a non-empty [old]: occurrences are removed left
    to right, without overlap. *)
Fixpoint remove_sub (fuel : nat) (s old : pystr) : pystr :=
  match fuel with
  | O => s
  | S fuel' =>
      match s with
      | [] => []
      | c :: s' =>
          if startswith s old then remove_sub fuel' (skipn (length old) s) old
          else c :: remove_sub fuel' s' old
      end
  end.

Definition replace_empty (s old : pystr) : pystr :=
  remove_sub (S (length s)) s old.

(** ** Language ratio *)

Local Open Scope N_scope.

(** [CJK_RE]: one character of the listed blocks. *)
Definition CJK_RE (c : cp) : bool :=
  between 0x2e80 0x2eff c      (* CJK Radicals Supplement *)
  || between 0x3000 0x303f c   (* CJK Symbols and Punctuation *)
  || between 0x3040 0x309f c   (* Hiragana *)
  || between 0x30a0 0x30ff c   (* Katakana *)
  || between 0x3100 0x312f c   (* Bopomofo *)
  || between 0x3130 0x318f c   (* Hangul Compatibility Jamo *)
  || between 0x3200 0x32ff c   (* Enclosed CJK Letters and Months *)
  || between 0x3300 0x33ff c   (* CJK Compatibility *)
  || between 0x3400 0x4dbf c   (* CJK Unified Ideographs Extension A *)
  || between 0x4e00 0x9fff c   (* CJK Unified Ideographs *)
  || between 0xac00 0xd7af c   (* Hangul Syllables *)
  || between 0xf900 0xfaff c   (* CJK Compatibility Ideographs *)
  || between 0xfe30 0xfe4f c   (* CJK Compatibility Forms *)
  || between 0xff01 0xff60 c   (* Fullwidth Forms *)
  || between 0xffe0 0xffef c.  (* Fullwidth Signs *)

Local Close Scope N_scope.

(** [sum(1 for ch in text if p(ch))]. *)
Definition count (p : cp -> bool) (text : pystr) : nat := length (filter p text).

Definition Qnat (n : nat) : Q := inject_Z (Z.of_nat n).

Definition cjk_ratio (text : pystr) : Q :=
  match text with
  | [] => 0%Q
  | _ =>
      let total := count (fun ch => negb (isspace ch)) text in
      if Nat.eqb total 0 then 0%Q
      else
        let cjk_count := count CJK_RE text in
        (Qnat cjk_count / Qnat total)%Q
  end.

(** ** The Python runtime *)

(** What the code takes from the Unicode character database and from float
    formatting. *)
Class PyRuntime : Type := {
  (** [ch.isalnum()]: with ['_'] the word characters [\w] of [re]. *)
  isalnum : cp -> bool;
  (** The value of a decimal digit (category Nd), which [\d] matches and
      [int()] reads. *)
  decimal : cp -> option N;
  (** [s.lower()] and [s.upper()]. *)
  lower : pystr -> pystr;
  upper : pystr -> pystr;
  (** [f"{x:.1%}"]. *)
  format_percent1 : Q -> pystr;
  (** [sys.get_int_max_str_digits()]: 4300 unless it is changed, 0 for no
      limit. *)
  int_max_str_digits : nat
}.

(** ** Regular expressions

    The patterns of the module are written in the syntax below and run by a
    backtracking matcher with the priorities of [re]: alternatives left to
    right, greedy repetitions longest first, lazy ones shortest first. *)

Inductive regex : Type :=
| Eps                                   (* the empty pattern *)
| Chr (p : cp -> bool)                  (* a literal, a class, [\s], [\d], [.] *)
| Cat (r1 r2 : regex)
| Alt (r1 r2 : regex)                   (* r1|r2 *)
| Rep (greedy : bool) (lo : nat) (hi : option nat) (r : regex)
| Grp (n : nat) (r : regex)             (* capturing group number n *)
| Bol (multiline : bool)                (* ^ *)
| Eol (multiline : bool)                (* $ *)
| EndZ                                  (* \Z *)
| WordB                                 (* \b *)
| Ahead (r : regex).                    (* (?=r) *)

(** A position of the subject: the character before it, the text from it,
    and the groups matched so far. *)
Record mstate : Type := {
  prev : option cp;
  rest : pystr;
  caps : list (nat * pystr)
}.

Definition start_of (s : pystr) : mstate := {| prev := None; rest := s; caps := [] |}.

Definition step (c : cp) (s' : pystr) (st : mstate) : mstate :=
  {| prev := Some c; rest := s'; caps := caps st |}.

(** The text between two positions of one subject. *)
Definition taken (st st' : mstate) : pystr :=
  firstn (length (rest st) - length (rest st')) (rest st).

Definition set_cap (n : nat) (v : pystr) (st : mstate) : mstate :=
  {| prev := prev st; rest := rest st; caps := (n, v) :: caps st |}.

(** The first alternative that succeeds; the second one is only run when
    the first fails. *)
Definition or_else {A : Type} (x : option A) (y : unit -> option A) : option A :=
  match x with Some _ => x | None => y tt end.

Definition below (cnt : nat) (hi : option nat) : bool :=
  match hi with None => true | Some h => Nat.ltb cnt h end.

Definition at_bol (multiline : bool) (st : mstate) : bool :=
  match prev st with
  | None => true
  | Some c => multiline && N.eqb c NL
  end.

Definition at_eol (multiline : bool) (st : mstate) : bool :=
  match rest st with
  | [] => true
  | c :: s' => N.eqb c NL && (multiline || match s' with [] => true | _ => false end)
  end.

Section Matcher.
Context {R : PyRuntime}.

(** [\w]. *)
Definition isword (c : cp) : bool := isalnum c || N.eqb c 0x5F%N.

Definition word_opt (o : option cp) : bool :=
  match o with Some c => isword c | None => false end.

Definition at_wordb (st : mstate) : bool :=
  xorb (word_opt (prev st)) (word_opt (hd_error (rest st))).

(** [\d]. *)
Definition isdecimal (c : cp) : bool :=
  match decimal c with Some _ => true | None => false end.

Definition cont := mstate -> option mstate.

(** The repetition of [body] between [lo] and [hi] times.  An iteration
    has to consume a character (every repeated pattern of the module
    does), which bounds the iterations by the length of the subject. *)
Fixpoint rep_loop (body : mstate -> cont -> option mstate) (greedy : bool)
    (lo : nat) (hi : option nat) (fuel cnt : nat) (st : mstate) (k : cont)
    : option mstate :=
  let stop (_ : unit) := if Nat.leb lo cnt then k st else None in
  let more (_ : unit) :=
    match fuel with
    | O => None
    | S fuel' =>
        if below cnt hi then
          body st (fun st' =>
            if Nat.ltb (length (rest st')) (length (rest st))
            then rep_loop body greedy lo hi fuel' (S cnt) st' k
            else None)
        else None
    end in
  if greedy then or_else (more tt) stop else or_else (stop tt) more.

Fixpoint rmatch (r : regex) (st : mstate) (k : cont) {struct r} : option mstate :=
  match r with
  | Eps => k st
  | Chr p =>
      match rest st with
      | c :: s' => if p c then k (step c s' st) else None
      | [] => None
      end
  | Cat r1 r2 => rmatch r1 st (fun st' => rmatch r2 st' k)
  | Alt r1 r2 => or_else (rmatch r1 st k) (fun _ => rmatch r2 st k)
  | Rep greedy lo hi r1 =>
      rep_loop (rmatch r1) greedy lo hi (S (length (rest st))) 0 st k
  | Grp n r1 => rmatch r1 st (fun st' => k (set_cap n (taken st st') st'))
  | Bol ml => if at_bol ml st then k st else None
  | Eol ml => if at_eol ml st then k st else None
  | EndZ => match rest st with [] => k st | _ => None end
  | WordB => if at_wordb st then k st else None
  | Ahead r1 =>
      match rmatch r1 st Some with
      | Some st' => k {| prev := prev st; rest := rest st; caps := caps st' |}
      | None => None
      end
  end.

(** [pattern.match(s)]: the state after the match. *)
Definition re_match (r : regex) (s : pystr) : option mstate :=
  rmatch r (start_of s) Some.

(** [pattern.fullmatch(s)]. *)
Definition re_fullmatch (r : regex) (s : pystr) : option mstate :=
  rmatch r (start_of s)
    (fun st' => match rest st' with [] => Some st' | _ => None end).

(** [pattern.search(s)] from a position: the position where the leftmost
    match starts and the state after it. *)
Fixpoint search_from (r : regex) (p : option cp) (s : pystr)
    : option (mstate * mstate) :=
  let st := {| prev := p; rest := s; caps := [] |} in
  match rmatch r st Some with
  | Some st' => Some (st, st')
  | None =>
      match s with
      | [] => None
      | c :: s' => search_from r (Some c) s'
      end
  end.

Definition re_search (r : regex) (s : pystr) : option mstate :=
  option_map snd (search_from r None s).

Definition found (o : option mstate) : bool :=
  match o with Some _ => true | None => false end.

(** [m.group(n)]: [None] when the group took no part in the match. *)
Fixpoint lookup_cap (n : nat) (cs : list (nat * pystr)) : option pystr :=
  match cs with
  | [] => None
  | (i, v) :: cs' => if Nat.eqb i n then Some v else lookup_cap n cs'
  end.

Definition group (n : nat) (st : mstate) : option pystr := lookup_cap n (caps st).

(** [re.sub(r, repl, s)] for a pattern that matches no empty string. *)
Fixpoint sub_from (fuel : nat) (r : regex) (repl : pystr) (p : option cp)
    (s : pystr) : pystr :=
  match fuel with
  | O => s
  | S fuel' =>
      match search_from r p s with
      | None => s
      | Some (st, st') =>
          firstn (length s - length (rest st)) s ++
          (if Nat.ltb (length (rest st')) (length (rest st))
           then repl ++ sub_from fuel' r repl (prev st') (rest st')
           else rest st)
      end
  end.

Definition re_sub (r : regex) (repl s : pystr) : pystr :=
  sub_from (S (length s)) r repl None s.

End Matcher.

(** ** Writing patterns *)

(** The character of a one-character literal. *)
Definition chr (s : String.string) : cp := hd 0%N (lit s).
Arguments chr s%_string.

Local Open Scope N_scope.

Definition is_upper_ascii (c : cp) : bool := between 0x41 0x5A c.
Definition is_lower_ascii (c : cp) : bool := between 0x61 0x7A c.

Definition lower_cp (c : cp) : cp := if is_upper_ascii c then c + 32 else c.
Definition upper_cp (c : cp) : cp := if is_lower_ascii c then c - 32 else c.

(** A literal character [l] of a pattern compiled with [re.IGNORECASE]: the
    characters whose lower case is that of [l], and the characters [re]
    treats as equivalent to it.  For an ASCII letter these are its two
    cases, and U+0130, U+0131 for [i], U+017F for [s], U+212A for [k]. *)
Definition ci (l : cp) (c : cp) : bool :=
  if is_upper_ascii l || is_lower_ascii l then
    let lo := lower_cp l in
    N.eqb c lo || N.eqb c (upper_cp lo)
    || (N.eqb lo 0x69 && (N.eqb c 0x130 || N.eqb c 0x131))
    || (N.eqb lo 0x73 && N.eqb c 0x17F)
    || (N.eqb lo 0x6B && N.eqb c 0x212A)
  else N.eqb c l.

Local Close Scope N_scope.

Definition seq (rs : list regex) : regex := fold_right Cat Eps rs.

Fixpoint alts (rs : list regex) : regex :=
  match rs with
  | [] => Eps
  | [r] => r
  | r :: rs' => Alt r (alts rs')
  end.

(** A literal text, and the same under [re.IGNORECASE]. *)
Definition txt (s : String.string) : regex := seq (map (fun l => Chr (N.eqb l)) (lit s)).
Definition txti (s : String.string) : regex := seq (map (fun l => Chr (ci l)) (lit s)).

(** A class [[...]] of ASCII characters. *)
Definition cls (s : String.string) (c : cp) : bool := existsb (N.eqb c) (lit s).

(** [.] without [re.DOTALL], and with it. *)
Definition dot (c : cp) : bool := negb (N.eqb c NL).
Definition dotall (c : cp) : bool := true.

Definition star (r : regex) : regex := Rep true 0 None r.
Definition plus (r : regex) : regex := Rep true 1 None r.
Definition opt (r : regex) : regex := Rep true 0 (Some 1) r.
Definition lazy_star (r : regex) : regex := Rep false 0 None r.

Definition ws : regex := Chr isspace.

(** ** The moderator *)

Local Open Scope string_scope.

Definition PLUGIN_REPOS : list pystr :=
  [lit "langgenius/dify-plugins"; lit "langgenius/dify-official-plugins"].
Definition CORE_REPO : pystr := lit "langgenius/dify".
Definition WEBAPP_REPOS : list pystr :=
  [lit "langgenius/webapp-conversation"; lit "langgenius/webapp-text-generator"].
Definition CORE_LIKE_REPOS : list pystr := CORE_REPO :: WEBAPP_REPOS.
Definition SUPPORTED_REPOS : list pystr := PLUGIN_REPOS ++ CORE_LIKE_REPOS.
Definition SKIP_ASSOCIATIONS : list pystr :=
  [lit "OWNER"; lit "MEMBER"; lit "COLLABORATOR"; lit "CONTRIBUTOR"].
Definition CJK_RATIO_THRESHOLD : Q := (20 # 100)%Q.
Definition MIN_DIFY_VERSION : N * N * N := (1, 10, 0)%N.
Definition MIN_DIFY_VERSION_STR : pystr := lit "1.10.0".

Definition FORUM_URL : pystr := lit "https://forum.dify.ai/".
Definition DISCORD_URL : pystr := lit "https://discord.com/invite/FngNHpbcY7".
Definition BUG_TEMPLATE_URL : pystr :=
  lit "https://github.com/langgenius/dify/blob/" ++
  lit "3aecceff27c6b712628ad463c6e6ac15b8527ebe/.github/ISSUE_TEMPLATE/bug_report.yml".
Definition CODE_OF_CONDUCT_URL : pystr :=
  lit "https://github.com/langgenius/dify/blob/" ++
  lit "4c1ad40f8e8a6ee58a958330558f2178b7e47fa7/.github/CODE_OF_CONDUCT.md".
Definition CONTRIBUTING_URL : pystr :=
  lit "https://github.com/langgenius/dify/blob/" ++
  lit "25ac69afc5ac9324079be5f0d02b2a2b03dcc784/CONTRIBUTING.md".

Definition hashes_1_6 : regex := Rep true 1 (Some 6) (Chr (N.eqb (chr "#"))).

(** [^#{1,6}\s*Self Checks\s*$], ignoring case. *)
Definition SELF_CHECKS_HEADER_RE : regex :=
  seq [Bol false; hashes_1_6; star ws; txti "Self Checks"; star ws; Eol false].

(** The two acknowledgment snippets of the Self Checks section (the second
    reads, in Chinese, that issues must be written in English). *)
Definition ALLOWED_SELF_CHECKS_CJK_SNIPPETS : list pystr :=
  [ [0x6211; 0x5df2; 0x9605; 0x8bfb; 0x5e76; 0x540c; 0x610f]%N;
    [0x8bf7; 0x52a1; 0x5fc5; 0x4f7f; 0x7528; 0x82f1; 0x6587; 0x63d0; 0x4ea4;
     0x20; 0x49; 0x73; 0x73; 0x75; 0x65; 0xff0c; 0x5426; 0x5219; 0x4f1a;
     0x88ab; 0x5173; 0x95ed; 0x3002; 0x8c22; 0x8c22; 0xff01; 0x3a; 0x29]%N ].

Definition NON_RESPONSE_VALUES : list pystr :=
  [lit "_no response_"; lit "n/a"; lit "na"; lit "none"].

Definition SKIP_SECTION_HEADINGS : list pystr := [lit "self checks"; lit "self check"].

Record IssueData : Type := {
  repo : pystr;
  number : Z;
  title : pystr;
  body : pystr;
  author : pystr;
  labels : list pystr;
  state : pystr;
  url : pystr;
  author_association : pystr;
  linked_prs : list pystr
}.

Record Decision : Type := {
  action : pystr;
  category : pystr;
  reasons : list pystr;
  comment : pystr       (* defaults to the empty string *)
}.

(** [dedupe]: the first occurrence of every item, in order. *)
Fixpoint dedupe_from (seen : list pystr) (items : list pystr) : list pystr :=
  match items with
  | [] => []
  | item :: items' =>
      if negb (str_in item seen) then item :: dedupe_from (item :: seen) items'
      else dedupe_from seen items'
  end.

Definition dedupe (items : list pystr) : list pystr := dedupe_from [] items.

Definition version : Type := (N * N * N)%type.

(** The exceptions of the module. *)
Inductive error : Type :=
| ValueError (message : pystr)        (* raise ValueError(message) *)
| InvalidLiteral (text : pystr)       (* the ValueError of int(text) *)
| DigitLimit (limit digits : nat).    (* int(text) on more digits than the limit *)

(** The value [x] returned by [e] is handed to [k]; an exception of [e]
    ends the computation. *)
Definition bind {A B : Type} (e : A + error) (k : A -> B + error) : B + error :=
  match e with
  | inl x => k x
  | inr exc => inr exc
  end.

Notation "x <- e ;; k" := (bind e (fun x => k))
  (at level 61, e at next level, right associativity).

(** The value a computation returned, if it raised nothing. *)
Definition returned {A : Type} (e : A + error) : option A :=
  match e with
  | inl x => Some x
  | inr _ => None
  end.

(** The heading pattern [^#{1,6}\s+.*], matched against a stripped line, and
    the same with the text after the blanks as group 1. *)
Definition HEADING_RE : regex :=
  seq [Bol false; hashes_1_6; plus ws; star (Chr dot)].
Definition HEADING_TEXT_RE : regex :=
  seq [Bol false; hashes_1_6; plus ws; Grp 1 (star (Chr dot))].

Definition CHECKBOX_ONLY : list pystr :=
  [lit "- [x]"; lit "- [ ]"; lit "- [X]"; lit "* [x]"; lit "* [ ]"; lit "* [X]"; lit ""].

Section Moderator.
Context {R : PyRuntime}.

Definition digit : regex := Chr isdecimal.

(** [\bdify\s*version\b], ignoring case. *)
Definition DIFY_VERSION_LINE_RE : regex :=
  seq [WordB; txti "dify"; star ws; txti "version"; WordB].

(** [\bdify\s*v?(\d+)\.(\d+)(?:\.(\d+))?\b], ignoring case. *)
Definition DIFY_VERSION_INLINE_RE : regex :=
  seq [WordB; txti "dify"; star ws; opt (txti "v");
       Grp 1 (plus digit); txt "."; Grp 2 (plus digit);
       opt (seq [txt "."; Grp 3 (plus digit)]); WordB].

(** [\bv?(\d+)\.(\d+)(?:\.(\d+))?\b]. *)
Definition SEMVER_RE : regex :=
  seq [WordB; opt (txt "v");
       Grp 1 (plus digit); txt "."; Grp 2 (plus digit);
       opt (seq [txt "."; Grp 3 (plus digit)]); WordB].

(** [re.sub(r"\s+", " ", text).strip()]. *)
Definition normalize_space (text : pystr) : pystr :=
  strip (re_sub (plus ws) (lit " ") text).

(** The loop of [sanitize_body_for_cjk]: the lines appended to [sanitized]
    from a given value of [in_self_checks]. *)
Fixpoint sanitize_lines (in_self_checks : bool) (lines : list pystr) : list pystr :=
  match lines with
  | [] => []
  | line :: lines' =>
      if found (re_match HEADING_RE (strip line)) then
        line :: sanitize_lines (found (re_match SELF_CHECKS_HEADER_RE (strip line))) lines'
      else if in_self_checks
              && existsb (fun snippet => contains line snippet)
                         ALLOWED_SELF_CHECKS_CJK_SNIPPETS then
        let cleaned := fold_left replace_empty ALLOWED_SELF_CHECKS_CJK_SNIPPETS line in
        if str_in (strip cleaned) CHECKBOX_ONLY then sanitize_lines in_self_checks lines'
        else cleaned :: sanitize_lines in_self_checks lines'
      else line :: sanitize_lines in_self_checks lines'
  end.

Definition sanitize_body_for_cjk (body : pystr) : pystr :=
  join nl (sanitize_lines false (splitlines body)).

(** The number a run of decimal digits writes. *)
Definition int (s : pystr) : N :=
  fold_left (fun acc c => (acc * 10 + match decimal c with Some d => d | None => 0 end)%N) s 0%N.

(** [int(s)] for a text of digits: characters that are digits and no
    decimal digits make it raise, and so do more digits than the limit. *)
Definition int_of_digits (s : pystr) : N + error :=
  if forallb isdecimal s then
    if negb (Nat.eqb int_max_str_digits 0) && Nat.ltb int_max_str_digits (length s)
    then inr (DigitLimit int_max_str_digits (length s))
    else inl (int s)
  else inr (InvalidLiteral s).

(** [int(m.group(n) or 0)]. *)
Definition int_group (n : nat) (m : mstate) : N + error :=
  match group n m with Some s => int_of_digits s | None => inl 0%N end.

(** [int(major), int(minor), int(patch or 0)], from left to right. *)
Definition version_of (m : mstate) : version + error :=
  major <- int_group 1 m ;;
  minor <- int_group 2 m ;;
  patch <- int_group 3 m ;;
  inl (major, minor, patch).

Definition parse_semver (text : pystr) : option version + error :=
  match re_search SEMVER_RE text with
  | None => inl None
  | Some m => v <- version_of m ;; inl (Some v)
  end.

(** The [for] loop of [extract_dify_version]: the version of the first line
    that carries the label and a version. *)
Fixpoint labelled_version (lines : list pystr) : option version + error :=
  match lines with
  | [] => inl None
  | line :: lines' =>
      if found (re_search DIFY_VERSION_LINE_RE line) then
        match parse_semver line with
        | inl (Some v) => inl (Some v)
        | inl None => labelled_version lines'
        | inr exc => inr exc
        end
      else labelled_version lines'
  end.

Definition extract_dify_version (body : pystr) : option version + error :=
  match body with
  | [] => inl None
  | _ =>
      match labelled_version (splitlines body) with
      | inl (Some v) => inl (Some v)
      | inl None =>
          match re_search DIFY_VERSION_INLINE_RE body with
          | Some m => v <- version_of m ;; inl (Some v)
          | None => inl None
          end
      | inr exc => inr exc
      end
  end.

Definition language_check_text (issue : IssueData) : pystr :=
  title issue ++ nl ++ sanitize_body_for_cjk (body issue).

(** [^\s*(how|what|...|help)\b], ignoring case. *)
Definition QUESTION_START_RE : regex :=
  seq [Bol false; star ws;
       Grp 1 (alts (map txti
         ["how"; "what"; "why"; "can"; "could"; "is"; "are"; "do"; "does";
          "did"; "where"; "when"; "which"; "who"; "whom"; "help"]));
       WordB].

Definition question_markers : list pystr :=
  map lit
    ["how to "; "what is "; "can i "; "could i "; "any idea"; "anyone know";
     "need help"; "i want to know"; "please tell me"; "i'm wondering";
     "i am wondering"; "is there a way"; "is it possible"; "does anyone";
     "has anyone"; "please help"; "how can i"; "how do i"; "where can i"].

Definition looks_like_question (issue : IssueData) : bool :=
  let labels_lower := map lower (labels issue) in
  if str_in (lit "question") labels_lower || str_in (lit "support") labels_lower then true
  else
    let title := strip (title issue) in
    if contains title (lit "?") || contains title [0xff1f%N] then true
    else if found (re_match QUESTION_START_RE title) then true
    else
      let body_head :=
        lower (normalize_space (join nl (firstn 10 (splitlines (body issue))))) in
      existsb (fun marker => contains body_head marker) question_markers.

Definition nonempty {A : Type} (l : list A) : bool :=
  match l with [] => false | _ => true end.

(** The loop of [extract_template_sections], from given values of
    [current_heading] and [current_lines]: the sections appended from there
    on, the one still open at the end included. *)
Fixpoint sections_loop (current_heading : pystr) (current_lines : list pystr)
    (lines : list pystr) : list (pystr * pystr) :=
  let flush :=
    if nonempty current_heading
    then [(current_heading, strip (join nl current_lines))]
    else [] in
  match lines with
  | [] => flush
  | line :: lines' =>
      let stripped := strip line in
      match re_match HEADING_TEXT_RE stripped with
      | Some heading_match =>
          flush ++
          sections_loop
            (strip (match group 1 heading_match with Some g => g | None => [] end))
            [] lines'
      | None => sections_loop current_heading (current_lines ++ [line]) lines'
      end
  end.

Definition extract_template_sections (body : pystr) : list (pystr * pystr) :=
  sections_loop [] [] (splitlines body).

(** [^[-*]\s*\[[ xX]\]]: a checkbox line. *)
Definition CHECKBOX_RE : regex :=
  seq [Bol false; Chr (cls "-*"); star ws; txt "["; Chr (cls " xX"); txt "]"].

(** The three tests of the loop of [effective_content] that skip a
    section: a checklist heading, an empty or no-response content, a
    content of checkbox lines only. *)
Definition checklist_heading (heading : pystr) : bool :=
  str_in (lower heading) SKIP_SECTION_HEADINGS.

Definition non_response (content : pystr) : bool :=
  let content_clean := normalize_space content in
  negb (nonempty content_clean) || str_in (lower content_clean) NON_RESPONSE_VALUES.

Definition checkbox_only (content : pystr) : bool :=
  let lines := filter nonempty (map strip (splitlines content)) in
  nonempty lines && forallb (fun ln => found (re_match CHECKBOX_RE ln)) lines.

(** One turn of that loop: the part a section adds to [parts], or [None]
    when the section is skipped. *)
Definition section_part (section : pystr * pystr) : option pystr :=
  let (heading, content) := section in
  if checklist_heading heading then None
  else if non_response content then None
  else if checkbox_only content then None
  else Some (normalize_space content).

Fixpoint content_parts (sections : list (pystr * pystr)) : list pystr :=
  match sections with
  | [] => []
  | s :: sections' =>
      match section_part s with
      | Some part => part :: content_parts sections'
      | None => content_parts sections'
      end
  end.

Definition effective_content (body : pystr) : pystr :=
  let sections := extract_template_sections body in
  if negb (nonempty sections) then normalize_space body
  else
    let parts := content_parts sections in
    if nonempty parts then join (lit " ") parts else normalize_space body.

(** [PLACEHOLDER_RE]: [\b(tbd|todo|n/?a|none|same as title|no idea)\b],
    ignoring case. *)
Definition PLACEHOLDER_RE : regex :=
  seq [WordB;
       Grp 1 (alts [txti "tbd"; txti "todo";
                    seq [txti "n"; opt (txt "/"); txti "a"];
                    txti "none"; txti "same as title"; txti "no idea"]);
       WordB].

(** [GENERIC_TITLE_RE], ignoring case; only used through [fullmatch]. *)
Definition GENERIC_TITLE_RE : regex :=
  seq [Bol false;
       Grp 1 (alts [txti "bug"; txti "issue"; txti "help"; txti "question";
                    txti "error"; txti "problem"; txti "bug report";
                    txti "help me"; txti "fix this"; txti "not working";
                    seq [txti "doesn"; opt (txt "'"); txti "t work"];
                    txti "please help"; txti "request"; txti "suggestion"]);
       Eol false].

(** [\b(idiot|stupid|dumb|fuck|shit|bitch)\b], ignoring case. *)
Definition DISRESPECTFUL_RE : regex :=
  seq [WordB;
       Grp 1 (alts (map txti ["idiot"; "stupid"; "dumb"; "fuck"; "shit"; "bitch"]));
       WordB].

(** [\b(bug|error|exception|traceback|crash|fail(?:s|ure)?)\b], ignoring
    case. *)
Definition BUG_MARKERS_RE : regex :=
  seq [WordB;
       Grp 1 (alts [txti "bug"; txti "error"; txti "exception"; txti "traceback";
                    txti "crash";
                    seq [txti "fail"; opt (Alt (txti "s") (txti "ure"))]]);
       WordB].

Definition detail_markers : list pystr :=
  map lit ["steps"; "reproduce"; "expected"; "actual"; "error"; "log";
           "screenshot"; "use case"; "environment"; "version"].

(** The sections counted as filled by [unclear_reasons]. *)
Definition filled_section (section : pystr * pystr) : bool :=
  let c := snd section in
  negb (str_in (lower (normalize_space c)) NON_RESPONSE_VALUES)
  && nonempty (normalize_space c)
  && negb (str_in (lower c) SKIP_SECTION_HEADINGS).

Definition title_too_generic (min_len : nat) (title_clean : pystr) : bool :=
  Nat.ltb (length title_clean) min_len || found (re_fullmatch GENERIC_TITLE_RE title_clean).

Definition unclear_reasons (issue : IssueData) : list pystr :=
  let title_clean := normalize_space (title issue) in
  let body_clean := normalize_space (body issue) in
  let body_lower := lower body_clean in
  let content := effective_content (body issue) in
  let content_len := length content in
  let reasons1 :=
    if title_too_generic 8 title_clean
    then [lit "Title is too short or generic."] else [] in
  if negb (nonempty body_clean) then
    reasons1 ++ [lit "Description is empty."]
  else
    let reasons2 := reasons1 ++
      (if Nat.ltb content_len 60
       then [lit "Description is too short to understand the task."] else []) in
    let reasons3 := reasons2 ++
      (if found (re_search PLACEHOLDER_RE body_clean)
       then [lit "Description contains placeholders instead of concrete details."]
       else []) in
    let sections := extract_template_sections (body issue) in
    let reasons4 := reasons3 ++
      (if nonempty sections
       then
         let filled := length (filter filled_section sections) in
         if Nat.leb filled 1
         then [lit "Almost all template sections are empty or marked _No response_."]
         else []
       else []) in
    let marker_hits :=
      length (filter (fun marker => contains body_lower marker) detail_markers) in
    let reasons5 := reasons4 ++
      (if Nat.ltb content_len 180 && Nat.ltb marker_hits 2
       then [lit "Description lacks enough concrete context for maintainers."]
       else []) in
    dedupe reasons5.

Definition title_and_body (issue : IssueData) : pystr :=
  title issue ++ nl ++ body issue.

Definition is_bug_like (issue : IssueData) : bool :=
  let labels_lower := map lower (labels issue) in
  if str_in (lit "bug") labels_lower then true
  else
    let combined := lower (title_and_body issue) in
    found (re_search BUG_MARKERS_RE combined).

Definition is_feature_like (issue : IssueData) : bool :=
  let labels_lower := map lower (labels issue) in
  if str_in (lit "feature") labels_lower || str_in (lit "enhancement") labels_lower then true
  else
    let combined := lower (title_and_body issue) in
    let markers :=
      map lit ["feature request"; "feature"; "enhancement"; "proposal"; "suggestion"] in
    existsb (fun marker => contains combined marker) markers.

Definition hashes : regex := plus (Chr (N.eqb (chr "#"))).
Definition newline : regex := Chr (N.eqb NL).

(** [FEATURE_STORY_SECTION_RE], compiled with the flags [(?is)]: the
    heading of question 1 of the feature template, the shortest text up to
    a blank line, and as group 1 the shortest text up to the heading of
    question 2 or the end of the body. *)
Definition FEATURE_STORY_SECTION_RE : regex :=
  seq [hashes; star ws; txt "1."; star ws;
       txti "Is this request related to a challenge you're experiencing?";
       lazy_star (Chr dotall); newline; newline;
       Grp 1 (lazy_star (Chr dotall));
       Ahead (Alt (seq [newline; hashes; star ws; txt "2."]) EndZ)].

Definition extract_feature_story (body : pystr) : pystr :=
  match re_search FEATURE_STORY_SECTION_RE body with
  | None => []
  | Some m => strip (match group 1 m with Some g => g | None => [] end)
  end.

(** [\b(add|support|allow|enable|expose|visualize|customize)\b]. *)
Definition FEATURE_VERB_RE : regex :=
  seq [WordB;
       Grp 1 (alts (map txt ["add"; "support"; "allow"; "enable"; "expose";
                             "visualize"; "customize"]));
       WordB].

Definition feature_request_quality (issue : IssueData) : bool :=
  let body := body issue in
  let body_lower := lower body in
  let body_clean := normalize_space body in
  if negb (nonempty body_clean) then false
  else
    let story := normalize_space (extract_feature_story body) in
    if nonempty story && negb (str_in (lower story) NON_RESPONSE_VALUES)
       && Nat.leb 60 (length story) then true
    else if contains body_lower (lit "example")
            && (contains body_lower (lit "expected output")
                || contains body_lower (lit "expected")) then true
    else if found (re_search FEATURE_VERB_RE body_lower)
    then Nat.leb 120 (length body_clean)
    else false.

(** [\bname\b] for a lower-case word. *)
Definition word (s : String.string) : regex := seq [WordB; txt s; WordB].

(** The dictionary [required] of [core_standard_violations], in the order
    of its keys: a label and the patterns of which one has to be found. *)
Definition required : list (pystr * list regex) :=
  [ (lit "Dify version", [word "dify version"; word "version"]);
    (lit "deployment mode (Cloud or Self Hosted)",
     [word "cloud"; seq [txt "self"; Chr (cls "- "); txt "hosted"];
      word "docker"; word "source"]);
    (lit "steps to reproduce",
     [txt "steps to reproduce"; word "reproduce";
      seq [Bol true; star ws; txt "1"; Chr (cls ".)"); plus ws]]);
    (lit "expected behavior", [txt "expected behavior"; word "expected"]) ].

Definition actual_patterns : list regex :=
  [txt "actual behavior"; word "actual"; seq [WordB; txt "log"];
   word "error"; txt "traceback"].

Definition any_found (patterns : list regex) (text : pystr) : bool :=
  existsb (fun pattern => found (re_search pattern text)) patterns.

Definition feature_markers : list pystr :=
  map lit ["use case"; "scenario"; "business value"; "why this is needed"; "motivation"].

Definition core_standard_violations (issue : IssueData) : list pystr :=
  let title_clean := normalize_space (title issue) in
  let body_clean := normalize_space (body issue) in
  let body_lower := lower (body issue) in
  let violations1 :=
    if title_too_generic 12 title_clean
    then [lit "Use a clear and descriptive issue title."] else [] in
  let violations2 := violations1 ++
    (if Nat.ltb (length body_clean) 120
     then [lit "Provide a detailed issue description with enough context."]
     else []) in
  let violations3 := violations2 ++
    (if found (re_search DISRESPECTFUL_RE (title_and_body issue))
     then [lit "Use respectful, professional language (Code of Conduct)."]
     else []) in
  let violations4 := violations3 ++
    (if is_bug_like issue then
       flat_map (fun entry : pystr * list regex =>
                   let (label, patterns) := entry in
                   if negb (any_found patterns body_lower)
                   then [lit "Include " ++ label ++ lit "."] else [])
                required ++
       (if negb (any_found actual_patterns body_lower)
        then [lit "Include actual behavior and logs/error details when possible."]
        else [])
     else []) in
  let violations5 := violations4 ++
    (if is_feature_like issue then
       if negb (existsb (fun marker => contains body_lower marker) feature_markers)
          && negb (feature_request_quality issue)
       then [lit "Describe the feature use case and expected value."] else []
     else []) in
  dedupe violations5.

(** ** Rendering the comment *)

(** [text.split("\n")]. *)
Fixpoint split_nl_from (cur : pystr) (s : pystr) : list pystr :=
  match s with
  | [] => [rev cur]
  | c :: s' =>
      if N.eqb c NL then rev cur :: split_nl_from [] s'
      else split_nl_from (c :: cur) s'
  end.

Definition split_nl (s : pystr) : list pystr := split_nl_from [] s.

(** A space or a tab. *)
Definition blank (c : cp) : bool := N.eqb c 0x20%N || N.eqb c 0x09%N.

Fixpoint take_blanks (line : pystr) : pystr :=
  match line with
  | c :: line' => if blank c then c :: take_blanks line' else []
  | [] => []
  end.

Fixpoint drop_blanks (line : pystr) : pystr :=
  match line with
  | c :: line' => if blank c then drop_blanks line' else line
  | [] => []
  end.

Fixpoint common_prefix (a b : pystr) : pystr :=
  match a, b with
  | x :: a', y :: b' => if N.eqb x y then x :: common_prefix a' b' else []
  | _, _ => []
  end.

(** One turn of the loop of [textwrap.dedent] over [indents]. *)
Definition merge_margin (margin : option pystr) (indent : pystr) : option pystr :=
  match margin with
  | None => Some indent
  | Some m =>
      if startswith indent m then Some m
      else if startswith m indent then Some indent
      else Some (common_prefix m indent)
  end.

(** [textwrap.dedent(text)] of the standard library, as CPython defines it
    up to version 3.13: lines made of spaces and tabs only are emptied, the
    margin is the longest run of spaces and tabs that starts every line
    holding other characters, and it is removed from the lines that start
    with it. *)
Definition dedent (text : pystr) : pystr :=
  let lines :=
    map (fun l => if nonempty (drop_blanks l) then l else []) (split_nl text) in
  let indents := map take_blanks (filter (fun l => nonempty (drop_blanks l)) lines) in
  match fold_left merge_margin indents None with
  | Some (c :: m) =>
      let margin := c :: m in
      join nl (map (fun l => if startswith l margin then skipn (length margin) l else l)
                   lines)
  | _ => join nl lines
  end.

(** [str(n)] for a natural number. *)
Fixpoint digits_from (fuel : nat) (n : N) (acc : pystr) : pystr :=
  match fuel with
  | O => acc
  | S fuel' =>
      let acc' := (0x30 + n mod 10)%N :: acc in
      if N.eqb (n / 10) 0 then acc' else digits_from fuel' (n / 10)%N acc'
  end.

Definition str (n : N) : pystr := digits_from (S (N.to_nat (N.log2 n))) n [].

Definition render_comment (issue : IssueData) (category : pystr)
    (reasons : list pystr) : pystr :=
  let reason_lines := join nl (map (fun item => lit "- " ++ item) reasons) in
  let author := author issue in
  if str_eqb category (lit "question") then
    strip (dedent (join nl
      [lit "            Hi @" ++ author ++ lit ", thanks for opening this issue.";
       [];
       lit "            ### Why this is being closed";
       lit "            This issue tracker is reserved for actionable bugs/tasks. This report looks like a usage question.";
       [];
       lit "            ### Next steps";
       lit "            Please use the community channels instead:";
       lit "            - " ++ FORUM_URL;
       lit "            - " ++ DISCORD_URL;
       [];
       lit "            If this is actually a bug/task, please open a new issue with clear reproducible details.";
       [];
       lit "            Thanks for understanding and for supporting Dify.";
       lit "            "]))
  else if str_eqb category (lit "language") then
    strip (dedent (join nl
      [lit "            Hi @" ++ author ++ lit ", thanks for opening this issue.";
       [];
       lit "            ### Why this is being closed";
       lit "            Dify issue tracking requires English-only issue title and description for consistent collaboration.";
       [];
       lit "            ### Next steps";
       lit "            Please open a new issue in English and include clear details so maintainers can help efficiently.";
       [];
       lit "            Thanks for understanding and for your support.";
       lit "            "]))
  else if str_eqb category (lit "unclear") then
    let reasons_block :=
      if nonempty reason_lines then reason_lines
      else lit "- The issue content is not clear enough to triage." in
    join nl
      [lit "Hi @" ++ author ++ lit ", thanks for opening this issue.";
       [];
       lit "### Why this is being closed";
       lit "We could not extract an actionable task from the current report.";
       [];
       reasons_block;
       [];
       lit "### Next steps";
       lit "Please open a new issue that includes:";
       lit "- A clear problem statement";
       lit "- Reproducible steps or concrete scope";
       lit "- Expected result";
       lit "- Actual result and logs/screenshots when available";
       [];
       lit "Thanks for understanding and for helping keep the issue tracker actionable."]
  else if str_eqb category (lit "outdated-version") then
    let reasons_block :=
      if nonempty reason_lines then reason_lines
      else lit "- Reported Dify version is below v" ++ MIN_DIFY_VERSION_STR ++ lit "." in
    join nl
      [lit "Hi @" ++ author ++ lit ", thanks for opening this issue.";
       [];
       lit "### Why this is being closed";
       lit "This report targets an outdated Dify version.";
       [];
       reasons_block;
       [];
       lit "### Next steps";
       lit "Please upgrade to the latest Dify release and retest. If the issue still occurs on the latest version, open a new issue with updated details.";
       [];
       lit "Thanks for understanding and for supporting Dify."]
  else if str_eqb category (lit "core-standards") then
    let reasons_block :=
      if nonempty reason_lines then reason_lines
      else lit "- Required issue details are missing." in
    join nl
      [lit "Hi @" ++ author ++ lit ", thanks for opening this issue.";
       [];
       lit "### Why this is being closed";
       lit "This report does not yet meet the required issue standard for `" ++ repo issue ++ lit "`.";
       [];
       reasons_block;
       [];
       lit "### Relevant guidelines";
       lit "- Bug report template: " ++ BUG_TEMPLATE_URL;
       lit "- Code of Conduct / Language Policy: " ++ CODE_OF_CONDUCT_URL;
       lit "- Contributing guide: " ++ CONTRIBUTING_URL;
       [];
       lit "### Next steps";
       lit "Please open a new issue in English and include all required details from the bug template/contributing guide.";
       [];
       lit "Thanks for understanding and for your contribution."]
  else [].

(** ** The decision engine *)

(** [max(a, b)] on ratios. *)
Definition ratio_max (a b : Q) : Q := if Qle_bool b a then a else b.

(** [a < b] on version tuples. *)
Definition version_lt (a b : version) : bool :=
  let '(a1, a2, a3) := a in
  let '(b1, b2, b3) := b in
  N.ltb a1 b1
  || (N.eqb a1 b1 && (N.ltb a2 b2 || (N.eqb a2 b2 && N.ltb a3 b3))).

(** [".".join(str(part) for part in reported_version)]. *)
Definition version_str (v : version) : pystr :=
  let '(a, b, c) := v in join (lit ".") [str a; str b; str c].

(** [Decision(action, category, reasons)], the comment left to its default. *)
Definition no_comment (action category : pystr) (reasons : list pystr) : Decision :=
  {| action := action; category := category; reasons := reasons; comment := [] |}.

(** [f"CJK ratio is {ratio:.1%} (>= {CJK_RATIO_THRESHOLD:.0%})."], where the
    threshold 0.20 prints as [20%]. *)
Definition cjk_reason (ratio : Q) : pystr :=
  lit "CJK ratio is " ++ format_percent1 ratio ++ lit " (>= 20%).".

Definition decide (issue : IssueData) : Decision + error :=
  if negb (str_in (repo issue) SUPPORTED_REPOS) then
    inl (no_comment (lit "skip") (lit "unsupported-repo")
           [lit "Repository '" ++ repo issue ++ lit "' is not supported by this skill."])
  else if negb (str_eqb (upper (state issue)) (lit "OPEN")) then
    inl (no_comment (lit "skip") (lit "not-open")
           [lit "Issue state is " ++ state issue ++ lit ". No moderation action required."])
  else
    let language_text := language_check_text issue in
    let combined_ratio := cjk_ratio language_text in
    let body_ratio := cjk_ratio (sanitize_body_for_cjk (body issue)) in
    let ratio := ratio_max combined_ratio body_ratio in
    let has_cjk := Qle_bool CJK_RATIO_THRESHOLD ratio in
    let is_question := looks_like_question issue in
    if str_in (repo issue) PLUGIN_REPOS then
      if has_cjk then
        let reasons := [cjk_reason ratio] in
        inl {| action := lit "close"; category := lit "language"; reasons := reasons;
               comment := render_comment issue (lit "language") reasons |}
      else if is_question then
        let reasons :=
          [lit "Issue appears to be a question rather than an actionable task."] in
        inl {| action := lit "close"; category := lit "question"; reasons := reasons;
               comment := render_comment issue (lit "question") reasons |}
      else
        let reasons := unclear_reasons issue in
        if nonempty reasons then
          inl {| action := lit "close"; category := lit "unclear"; reasons := reasons;
                 comment := render_comment issue (lit "unclear") reasons |}
        else
          inl (no_comment (lit "none") (lit "pass")
                 [lit "Issue appears actionable and follows repository moderation rules."])
    else if str_in (repo issue) CORE_LIKE_REPOS && nonempty (linked_prs issue) then
      let reasons :=
        [lit "Issue has " ++ str (N.of_nat (length (linked_prs issue)))
         ++ lit " linked PR(s); skip review per policy."] in
      inl (no_comment (lit "skip") (lit "linked-pr") reasons)
    else
      let association := upper (author_association issue) in
      if str_in (repo issue) CORE_LIKE_REPOS && str_in association SKIP_ASSOCIATIONS then
        inl (no_comment (lit "skip") (lit "trusted-author")
               [lit "Author association is " ++ association
                ++ lit "; skip review per policy."])
      else if has_cjk then
        let reasons := [cjk_reason ratio] in
        inl {| action := lit "close"; category := lit "language"; reasons := reasons;
               comment := render_comment issue (lit "language") reasons |}
      else if is_question then
        let reasons :=
          [lit "Issue appears to be a question rather than an actionable bug/task."] in
        inl {| action := lit "close"; category := lit "question"; reasons := reasons;
               comment := render_comment issue (lit "question") reasons |}
      else
        outdated <-
          (if str_eqb (repo issue) CORE_REPO then
             reported <- extract_dify_version (body issue) ;;
             inl (match reported with
                  | Some reported_version =>
                      if version_lt reported_version MIN_DIFY_VERSION
                      then Some reported_version else None
                  | None => None
                  end)
           else inl None) ;;
        match outdated with
        | Some reported_version =>
            let reasons :=
              [lit "Reported Dify version is v" ++ version_str reported_version
               ++ lit ", which is below v" ++ MIN_DIFY_VERSION_STR ++ lit "."] in
            inl {| action := lit "close"; category := lit "outdated-version";
                   reasons := reasons;
                   comment := render_comment issue (lit "outdated-version") reasons |}
        | None =>
            let violations := core_standard_violations issue in
            if nonempty violations then
              inl {| action := lit "close"; category := lit "core-standards";
                     reasons := violations;
                     comment := render_comment issue (lit "core-standards") violations |}
            else
              inl (no_comment (lit "none") (lit "pass")
                     [lit "Issue meets baseline moderation and quality standards."])
        end.

(** The test [decide] makes of the state, and the ratio it compares with
    the threshold. *)
Definition is_open (issue : IssueData) : bool :=
  str_eqb (upper (state issue)) (lit "OPEN").

Definition max_cjk_ratio (issue : IssueData) : Q :=
  ratio_max (cjk_ratio (language_check_text issue))
            (cjk_ratio (sanitize_body_for_cjk (body issue))).

End Moderator.

(** The categories [decide] closes an issue with: the keys of the templates
    of [render_comment]. *)
Definition closing_categories : list pystr :=
  [lit "question"; lit "language"; lit "unclear"; lit "outdated-version";
   lit "core-standards"].

(** The categories [decide] skips an issue with, and the categories whose
    comment lists the reasons. *)
Definition skip_categories : list pystr :=
  [lit "unsupported-repo"; lit "not-open"; lit "linked-pr"; lit "trusted-author"].

Definition listing_categories : list pystr :=
  [lit "unclear"; lit "outdated-version"; lit "core-standards"].

(** A margin of spaces and tabs, or none yet. *)
Definition blank_margin (margin : option pystr) : Prop :=
  match margin with Some m => forallb blank m = true | None => True end.

(** A text holds a character that is no blank. *)
Definition has_text (s : pystr) : bool := existsb (fun c => negb (isspace c)) s.

(** A template section with a heading, and no blank at the ends of its
    heading and of its content. *)
Definition tidy_section (section : pystr * pystr) : Prop :=
  fst section <> [] /\ strip (fst section) = fst section
  /\ strip (snd section) = snd section.

(** ** A runtime for ASCII text

    The tables of [ascii_runtime] are the ASCII part of Python's: the
    letters and the digits of ASCII are the alphanumeric characters, the
    digits of ASCII the decimal digits, and the case mappings change the
    letters of ASCII only.  A float is formatted as CPython does it, and
    the limit on the digits of an integer literal is CPython's default. *)

Definition ascii_isalnum (c : cp) : bool :=
  between 0x30%N 0x39%N c || is_upper_ascii c || is_lower_ascii c.

Definition ascii_decimal (c : cp) : option N :=
  if between 0x30%N 0x39%N c then Some (c - 0x30)%N else None.

(** IEEE 754 binary64, rounding to nearest with ties to even: the double
    nearest to an integer, the quotient and the product of two doubles. *)
Definition double_of_Z (z : Z) : spec_float := binary_normalize 53 1024 z 0 false.
Definition double_div (x y : spec_float) : spec_float := SFdiv 53 1024 x y.
Definition double_mul (x y : spec_float) : spec_float := SFmul 53 1024 x y.

Definition sign_text (negative : bool) : pystr := if negative then lit "-" else [].

(** [format(x, ".1f")]: the tenths nearest to the double, a tie going to
    the even one. *)
Definition fixed1 (x : spec_float) : pystr :=
  match x with
  | S754_zero s => sign_text s ++ lit "0.0"
  | S754_infinity s => sign_text s ++ lit "inf"
  | S754_nan => lit "nan"
  | S754_finite s m e =>
      let n := (Zpos m * 10 * 2 ^ Z.max e 0)%Z in
      let d := (2 ^ Z.max (- e) 0)%Z in
      let q := (n / d)%Z in
      let r := (n mod d)%Z in
      let up := (Z.ltb d (2 * r) || (Z.eqb d (2 * r) && Z.odd q))%Z in
      let t := Z.to_N (if up then q + 1 else q)%Z in
      sign_text s ++ str (t / 10)%N ++ lit "." ++ str (t mod 10)%N
  end.

(** [f"{x:.1%}"] for the quotient [x] of two integers below 2^53: the
    quotient is rounded to a double, the double is multiplied by 100 and
    the product is written with one decimal. *)
Definition percent1 (x : Q) : pystr :=
  let ratio := double_div (double_of_Z (Qnum x)) (double_of_Z (Zpos (Qden x))) in
  fixed1 (double_mul ratio (double_of_Z 100)) ++ lit "%".

Definition ascii_runtime : PyRuntime :=
  {| isalnum := ascii_isalnum;
     decimal := ascii_decimal;
     lower := map lower_cp;
     upper := map upper_cp;
     format_percent1 := percent1;
     int_max_str_digits := 4300 |}.


(** ** The command line

    [parse_issue_target] and [main] with what they do to the outside world
    written out: an exception is a result of type [error], and what
    [main] prints on the standard output and on the standard error and the
    command it runs once the issue is fetched are a list of events in the
    order they happen.  [main] starts from the arguments [parse_args]
    returned.  The collaborators of [main] that
    talk to GitHub are variables: [fetch_issue] returns an issue or the
    text of the exception it raised, [run_cmd] the output of a command or
    the text of the exception; so are [json.dumps], [repr] and the digits
    of [str.isdigit]. *)

Definition not_slash (c : cp) : bool := negb (N.eqb c (chr "/")).

Inductive event : Type :=
| Print (text : pystr)             (* print(text) *)
| PrintErr (text : pystr)          (* print(text, file=sys.stderr) *)
| Run (cmd : list pystr).          (* run_cmd(cmd) of close_issue *)

(** The arguments [parse_args] returns. *)
Record Args : Type := {
  arg_issue : pystr;
  arg_repo : option pystr;          (* None without --repo *)
  arg_apply : bool;
  arg_json : bool
}.

(** [str(n)] for an integer. *)
Definition str_int (n : Z) : pystr :=
  if Z.ltb n 0 then lit "-" ++ str (Z.to_N (- n)) else str (Z.to_N n).

(** The command of [close_issue]. *)
Definition close_command (issue : IssueData) (comment : pystr) : list pystr :=
  [lit "gh"; lit "issue"; lit "close"; str_int (number issue); lit "-R"; repo issue;
   lit "--reason"; lit "not planned"; lit "--comment"; comment].

Section CommandLine.
Context {R : PyRuntime}.
Variable isdigit_char : cp -> bool.
Variable repr : pystr -> pystr.
Variable fetch_issue : pystr -> N -> IssueData + pystr.
Variable run_cmd : list pystr -> pystr + pystr.
Variable json_dumps : pystr -> Z -> pystr -> pystr -> list pystr -> pystr.

(** [ISSUE_URL_RE]: the scheme, [github.com], the owner and the repository
    as groups 1 and 2, [issues] and the number as group 3, and an optional
    tail that starts with a slash, a question mark or a hash. *)
Definition ISSUE_URL_RE : regex :=
  seq [Bol false; txt "http"; opt (txt "s"); txt "://github.com/";
       Grp 1 (plus (Chr not_slash)); txt "/";
       Grp 2 (plus (Chr not_slash)); txt "/issues/";
       Grp 3 (plus digit);
       opt (seq [Chr (cls "/?#"); star (Chr dot)]);
       Eol false].

(** [s.isdigit()]. *)
Definition isdigit (s : pystr) : bool := nonempty s && forallb isdigit_char s.

Definition with_repo (repo : pystr) (number : N + error) : (pystr * N) + error :=
  match number with
  | inl n => inl (repo, n)
  | inr e => inr e
  end.

Definition group_text (n : nat) (m : mstate) : pystr :=
  match group n m with Some g => g | None => [] end.

Definition parse_issue_target (issue_ref : pystr) (repo_override : option pystr)
    : (pystr * N) + error :=
  match re_match ISSUE_URL_RE (strip issue_ref) with
  | Some m =>
      let repo := group_text 1 m ++ lit "/" ++ group_text 2 m in
      match repo_override with
      | Some (c :: o) =>
          if negb (str_eqb (c :: o) repo) then
            inr (ValueError (lit "--repo " ++ (c :: o)
                             ++ lit " does not match issue URL repo " ++ repo))
          else with_repo repo (int_of_digits (group_text 3 m))
      | _ => with_repo repo (int_of_digits (group_text 3 m))
      end
  | None =>
      if negb (isdigit issue_ref) then
        inr (ValueError (lit "--issue must be a GitHub issue URL or an issue number"))
      else
        match repo_override with
        | Some (c :: o) => with_repo (c :: o) (int_of_digits issue_ref)
        | _ => inr (ValueError (lit "--repo is required when --issue is a number"))
        end
  end.

(** [str(exc)]. *)
Definition error_text (e : error) : pystr :=
  match e with
  | ValueError message => message
  | InvalidLiteral text => lit "invalid literal for int() with base 10: " ++ repr text
  | DigitLimit limit digits =>
      lit "Exceeds the limit (" ++ str (N.of_nat limit)
      ++ lit " digits) for integer string conversion: value has "
      ++ str (N.of_nat digits)
      ++ lit " digits; use sys.set_int_max_str_digits() to increase the limit"
  end.

Definition print_summary (issue : IssueData) (decision : Decision) : list event :=
  [Print (lit "Repository: " ++ repo issue);
   Print (lit "Issue: #" ++ str_int (number issue) ++ lit " - " ++ title issue);
   Print (lit "URL: " ++ url issue);
   Print (lit "Author: @" ++ author issue ++ lit " (" ++ author_association issue ++ lit ")");
   Print (lit "Decision: " ++ upper (action decision) ++ lit " [" ++ category decision
          ++ lit "]")]
  ++ (if nonempty (reasons decision)
      then Print (lit "Reasons:")
           :: map (fun reason => Print (lit "- " ++ reason)) (reasons decision)
      else [])
  ++ (if nonempty (comment decision)
      then [Print (nl ++ lit "Comment preview:" ++ nl); Print (comment decision)]
      else []).

(** [close_issue]: the command run, and the exception of [run_cmd] if it
    raises. *)
Definition close_issue (issue : IssueData) (comment : pystr)
    : list event * option pystr :=
  let cmd := close_command issue comment in
  ([Run cmd], match run_cmd cmd with inl _ => None | inr exc => Some exc end).

(** [main]: the events and the exit status. *)
Definition main (args : Args) : list event * Z :=
  match parse_issue_target (arg_issue args) (arg_repo args) with
  | inr exc => ([PrintErr (lit "[ERROR] " ++ error_text exc)], 1%Z)
  | inl (target, issue_number) =>
      match fetch_issue target issue_number with
      | inr exc => ([PrintErr (lit "[ERROR] " ++ exc)], 1%Z)
      | inl issue =>
          match decide issue with
          | inr exc => ([PrintErr (lit "[ERROR] " ++ error_text exc)], 1%Z)
          | inl decision =>
              let summary := print_summary issue decision in
              let payload :=
                if arg_json args
                then [Print (json_dumps (repo issue) (number issue) (action decision)
                               (category decision) (reasons decision))]
                else [] in
              if str_eqb (action decision) (lit "close") then
                if arg_apply args then
                  let (ran, failure) := close_issue issue (comment decision) in
                  match failure with
                  | Some exc =>
                      (summary ++ payload ++ ran
                       ++ [PrintErr (lit "[ERROR] Failed to close issue: " ++ exc)], 1%Z)
                  | None =>
                      (summary ++ payload ++ ran
                       ++ [Print (nl ++ lit "Applied moderation: issue closed with comment.")],
                       0%Z)
                  end
                else
                  (summary ++ payload
                   ++ [Print (nl
                              ++ lit "Dry run only. Re-run with --apply to close the issue.")],
                   0%Z)
              else
                (summary ++ payload ++ [Print (nl ++ lit "No close action applied.")], 0%Z)
          end
      end
  end.

End CommandLine.

(** ** Example issues *)

Definition example_issue (r t b st assoc : pystr) (prs : list pystr) : IssueData :=
  {| repo := r; number := 1; title := t; body := b; author := lit "alice";
     labels := []; state := st; url := []; author_association := assoc;
     linked_prs := prs |}.

(** Four ideographs (a greeting to the world). *)
Definition ideographs : pystr := [0x4F60; 0x597D; 0x4E16; 0x754C]%N.

Definition fence : pystr := lit "```".

Definition plain_body : pystr := lit "The importer stops after the first page.".

(** The same body followed by a fenced code block. *)
Definition fenced_body : pystr :=
  plain_body ++ nl ++ fence ++ nl ++ ideographs ++ ideographs ++ ideographs
  ++ nl ++ fence.

Definition closed_foreign_issue : IssueData :=
  example_issue (lit "octocat/hello-world") (lit "Importer stops after the first page")
    plain_body (lit "CLOSED") (lit "NONE") [].

Definition closed_plugin_issue : IssueData :=
  example_issue (lit "langgenius/dify-plugins") (lit "Importer stops after the first page")
    plain_body (lit "CLOSED") (lit "NONE") [].

Definition generic_title_issue : IssueData :=
  example_issue (lit "langgenius/dify-plugins") (lit "bug") [] (lit "OPEN") (lit "NONE") [].

Definition blank_body_issue : IssueData :=
  example_issue (lit "langgenius/dify-plugins") (lit "Importer stops after the first page")
    (lit "   ") (lit "OPEN") (lit "NONE") [].


Definition cjk_question_issue : IssueData :=
  example_issue (lit "langgenius/dify-plugins") (lit "How do I install this?")
    (ideographs ++ ideographs) (lit "OPEN") (lit "NONE") [].

Definition linked_pr_issue : IssueData :=
  example_issue CORE_REPO (lit "bug") (lit "stupid") (lit "OPEN") (lit "NONE")
    [lit "https://github.com/langgenius/dify/pull/1"].

Definition member_issue : IssueData :=
  example_issue CORE_REPO (lit "bug") [] (lit "open") (lit "member") [].

Definition old_version_issue : IssueData :=
  example_issue CORE_REPO (lit "Importer stops after the first page")
    (lit "Dify version: 1.5.0") (lit "OPEN") (lit "NONE") [].

Definition detailed_body : pystr :=
  lit "Steps to reproduce: open the importer and load two pages. "
  ++ lit "Expected both pages, the actual result is only the first page.".

Definition passing_issue : IssueData :=
  example_issue (lit "langgenius/dify-plugins") (lit "Importer stops after the first page")
    detailed_body (lit "OPEN") (lit "NONE") [].

Definition question_mark_issue : IssueData :=
  example_issue (lit "langgenius/dify-plugins") (lit "Importer stops after the first page?")
    detailed_body (lit "OPEN") (lit "NONE") [].

(** A version whose minor number has one digit more than [int] converts,
    and an issue of the flagship repository that reports it. *)
Definition long_version_body : pystr := lit "Dify version: 0." ++ repeat (chr "1") 4301.

Definition long_version_issue : IssueData :=
  example_issue (lit "langgenius/dify") (lit "Upgrade fails on start")
    long_version_body (lit "open") (lit "NONE") [].

Definition fetch_long_version_issue (target : pystr) (n : N) : IssueData + pystr :=
  inl long_version_issue.


(** The character before the position that follows a run [w]. *)
Definition last_seen (p : option cp) (w : pystr) : option cp :=
  fold_left (fun _ c => Some c) w p.

(** Collaborators for the examples: digits are the ASCII digits, issues
    are fetched from a table of one issue, every command succeeds. *)
Definition ascii_isdigit (c : cp) : bool := between 0x30%N 0x39%N c.

Definition fetch_generic_title_issue (target : pystr) (n : N) : IssueData + pystr :=
  if str_eqb target (lit "langgenius/dify-plugins") && N.eqb n 1
  then inl generic_title_issue
  else inr (lit "Command failed (1): gh issue view").

Definition run_ok (cmd : list pystr) : pystr + pystr := inl [].

Definition no_json (r : pystr) (n : Z) (a c : pystr) (rs : list pystr) : pystr := [].

Definition apply_args : Args :=
  {| arg_issue := lit "1"; arg_repo := Some (lit "langgenius/dify-plugins");
     arg_apply := true; arg_json := false |}.

Definition dry_run_args : Args :=
  {| arg_issue := lit "https://github.com/langgenius/dify-plugins/issues/1";
     arg_repo := None; arg_apply := false; arg_json := false |}.

Definition skipped_sections_body : pystr :=
  join nl [lit "## Self Checks"; lit "- [x] I have searched the issues";
           lit "## Description"; lit "_No response_"].

(** * Properties *)

(** ** Strings *)

Lemma str_eqb_eq (a b : pystr) : str_eqb a b = true <-> a = b.
Proof.
  revert b; induction a as [|x a IH]; intros [|y b]; simpl; split;
    try congruence; try reflexivity.
  - intros H. apply andb_true_iff in H as [Hx Hab].
    apply N.eqb_eq in Hx. apply IH in Hab. congruence.
  - intros H. injection H as -> ->. rewrite N.eqb_refl. simpl. now apply IH.
Qed.

Lemma str_eqb_refl (a : pystr) : str_eqb a a = true.
Proof. now apply str_eqb_eq. Qed.

Lemma str_in_In (x : pystr) (xs : list pystr) : str_in x xs = true <-> In x xs.
Proof.
  unfold str_in. rewrite existsb_exists. split.
  - intros (y & Hy & E). apply str_eqb_eq in E. now subst.
  - intros H. exists x. split; [assumption | apply str_eqb_refl].
Qed.

Lemma between_spec (lo hi c : cp) :
  between lo hi c = true <-> (lo <= c <= hi)%N.
Proof.
  unfold between. rewrite andb_true_iff, !N.leb_le. tauto.
Qed.

(** ** Language ratio *)

(** The ideographic space U+3000 is the one character that is both a blank
    and in the ranges of [CJK_RE]. *)
Lemma cjk_and_space (c : cp) :
  CJK_RE c = true -> isspace c = true -> c = 0x3000%N.
Proof.
  unfold CJK_RE, isspace. rewrite !orb_true_iff, !between_spec, !N.eqb_eq.
  unfold cp in *. lia.
Qed.

Lemma count_le (p q : cp -> bool) (text : pystr) :
  (forall c, In c text -> p c = true -> q c = true) ->
  count p text <= count q text.
Proof.
  unfold count. induction text as [|c text IH]; intros H; simpl; [lia|].
  assert (IH' : length (filter p text) <= length (filter q text)).
  { apply IH. intros d Hd. apply H. now right. }
  destruct (p c) eqn:Hp.
  - rewrite (H c (or_introl eq_refl) Hp). simpl. lia.
  - destruct (q c); simpl; lia.
Qed.

Lemma Qnat_ratio_bounds (a b : nat) :
  b <> 0 -> a <= b -> (0 <= Qnat a / Qnat b <= 1)%Q.
Proof.
  intros Hb Hab.
  assert (Hpos : (0 < Qnat b)%Q).
  { unfold Qnat, Qlt; simpl. lia. }
  split.
  - apply Qle_shift_div_l; [assumption|]. rewrite Qmult_0_l.
    unfold Qnat, Qle; simpl. lia.
  - apply Qle_shift_div_r; [assumption|]. rewrite Qmult_1_l.
    unfold Qnat, Qle; simpl. lia.
Qed.

(** Without an ideographic space the result of [cjk_ratio] is a ratio. *)
Lemma cjk_ratio_bounds (text : pystr) :
  ~ In 0x3000%N text -> (0 <= cjk_ratio text <= 1)%Q.
Proof.
  intros Hno. unfold cjk_ratio.
  destruct text as [|c0 text0] eqn:E; [split; discriminate|].
  rewrite <- E in *. clear E c0 text0.
  destruct (Nat.eqb _ 0) eqn:Ht; [split; discriminate|].
  apply Nat.eqb_neq in Ht.
  apply Qnat_ratio_bounds; [assumption|].
  apply count_le. intros c Hc Hcjk.
  destruct (isspace c) eqn:Hs; [|reflexivity].
  exfalso. apply Hno. now rewrite <- (cjk_and_space c Hcjk Hs).
Qed.

Lemma cjk_ratio_empty : cjk_ratio [] = 0%Q.
Proof. reflexivity. Qed.

(** C1 (the code departs from the claim): on two ideographic spaces
    followed by the letter a, [cjk_ratio] counts one character that is not
    a blank and two characters of the CJK ranges, and returns 2, which is
    no ratio in the interval from 0 to 1. *)
Theorem cjk_ratio_ideographic_space :
  count (fun ch => negb (isspace ch)) [0x3000; 0x3000; 0x61]%N = 1
  /\ count CJK_RE [0x3000; 0x3000; 0x61]%N = 2
  /\ cjk_ratio [0x3000; 0x3000; 0x61]%N = (2 # 1)%Q.
Proof. repeat split. Qed.

(** ** Rendering *)

Lemma has_text_app (a b : pystr) : has_text (a ++ b) = has_text a || has_text b.
Proof. apply existsb_app. Qed.

Lemma has_text_rev (s : pystr) : has_text (rev s) = has_text s.
Proof.
  apply eq_true_iff_eq. unfold has_text. rewrite !existsb_exists.
  split; intros (c & Hc & E); exists c; split; try assumption;
    [apply in_rev | apply in_rev in Hc]; assumption.
Qed.

Lemma has_text_lstrip (s : pystr) : has_text (lstrip s) = has_text s.
Proof.
  induction s as [|c s IH]; [reflexivity|]. simpl.
  destruct (isspace c) eqn:E; simpl; [assumption | now rewrite E].
Qed.

Lemma has_text_strip (s : pystr) : has_text (strip s) = has_text s.
Proof.
  unfold strip, rstrip.
  now rewrite has_text_rev, has_text_lstrip, has_text_rev, has_text_lstrip.
Qed.

Lemma has_text_nonempty (s : pystr) : has_text s = true -> s <> [].
Proof. now destruct s. Qed.

Lemma has_text_join (ls : list pystr) :
  has_text (join nl ls) = existsb has_text ls.
Proof.
  induction ls as [|l ls IH]; [reflexivity|].
  destruct ls as [|l' ls'].
  - simpl. now rewrite orb_false_r.
  - change (join nl (l :: l' :: ls')) with (l ++ nl ++ join nl (l' :: ls')).
    rewrite !has_text_app, IH. reflexivity.
Qed.

Lemma split_nl_from_nonempty (cur s : pystr) : split_nl_from cur s <> [].
Proof.
  revert cur; induction s as [|c s IH]; intros cur; simpl; [discriminate|].
  destruct (N.eqb c NL); [discriminate | apply IH].
Qed.

Lemma join_cons (x : pystr) (ls : list pystr) :
  ls <> [] -> join nl (x :: ls) = x ++ nl ++ join nl ls.
Proof. destruct ls; [contradiction | reflexivity]. Qed.

Lemma join_split_nl_from (cur s : pystr) :
  join nl (split_nl_from cur s) = rev cur ++ s.
Proof.
  revert cur; induction s as [|c s IH]; intros cur; simpl.
  - now rewrite app_nil_r.
  - destruct (N.eqb c NL) eqn:E.
    + apply N.eqb_eq in E. subst c.
      rewrite join_cons by apply split_nl_from_nonempty.
      rewrite IH. reflexivity.
    + rewrite IH. simpl. now rewrite <- app_assoc.
Qed.

Lemma join_split_nl (s : pystr) : join nl (split_nl s) = s.
Proof. apply join_split_nl_from. Qed.

Lemma blank_isspace (c : cp) : blank c = true -> isspace c = true.
Proof.
  unfold blank. rewrite orb_true_iff, !N.eqb_eq. now intros [-> | ->].
Qed.

Lemma blanks_no_text (s : pystr) : forallb blank s = true -> has_text s = false.
Proof.
  induction s as [|c s IH]; [reflexivity|]. simpl.
  intros H. apply andb_true_iff in H as [Hc Hs].
  now rewrite (blank_isspace _ Hc), IH.
Qed.

Lemma drop_blanks_nil (l : pystr) : drop_blanks l = [] -> forallb blank l = true.
Proof.
  induction l as [|c l IH]; [reflexivity|]. simpl.
  destruct (blank c); [assumption | discriminate].
Qed.

Lemma take_blanks_blank (l : pystr) : forallb blank (take_blanks l) = true.
Proof.
  induction l as [|c l IH]; [reflexivity|]. simpl.
  destruct (blank c) eqn:E; [simpl; now rewrite E | reflexivity].
Qed.

Lemma common_prefix_blank (a b : pystr) :
  forallb blank a = true -> forallb blank (common_prefix a b) = true.
Proof.
  revert b; induction a as [|x a IH]; intros [|y b]; simpl; try reflexivity.
  intros H. apply andb_true_iff in H as [Hx Ha].
  destruct (N.eqb x y); [simpl; now rewrite Hx, IH | reflexivity].
Qed.

(** The margin [textwrap.dedent] removes is made of spaces and tabs. *)
Lemma margin_blank (indents : list pystr) (margin : option pystr) :
  Forall (fun i => forallb blank i = true) indents ->
  blank_margin margin ->
  blank_margin (fold_left merge_margin indents margin).
Proof.
  intros Hall. revert margin.
  induction Hall as [|i indents Hi _ IH]; intros margin Hm; [assumption|].
  simpl. apply IH. destruct margin as [m|]; simpl in *; [|assumption].
  destruct (startswith i m); [assumption|].
  destruct (startswith m i); [assumption|].
  now apply common_prefix_blank.
Qed.

Lemma startswith_skipn (l m : pystr) :
  startswith l m = true -> l = m ++ skipn (length m) l.
Proof.
  revert l; induction m as [|x m IH]; intros l; [reflexivity|].
  destruct l as [|y l]; simpl; [discriminate|].
  intros H. apply andb_true_iff in H as [Hx Hl].
  apply N.eqb_eq in Hx. subst y. f_equal. now apply IH.
Qed.

Lemma existsb_map_ext {A : Type} (p : A -> bool) (f : A -> A) (ls : list A) :
  (forall l, p (f l) = p l) -> existsb p (map f ls) = existsb p ls.
Proof.
  intros H. induction ls as [|l ls IH]; [reflexivity|]. simpl. now rewrite H, IH.
Qed.

(** [textwrap.dedent] removes spaces and tabs only. *)
Lemma has_text_dedent (text : pystr) : has_text (dedent text) = has_text text.
Proof.
  unfold dedent.
  set (clear := fun l : pystr => if nonempty (drop_blanks l) then l else []).
  assert (Hclear : forall l, has_text (clear l) = has_text l).
  { intros l. unfold clear. destruct (drop_blanks l) eqn:E; [|reflexivity].
    simpl. symmetry. now apply blanks_no_text, drop_blanks_nil. }
  assert (Hlines : has_text (join nl (map clear (split_nl text))) = has_text text).
  { rewrite has_text_join, existsb_map_ext by assumption.
    now rewrite <- has_text_join, join_split_nl. }
  match goal with
  | |- context [fold_left merge_margin ?i None] =>
      pose proof (@margin_blank i None) as Hm;
      destruct (fold_left merge_margin i None) as [[|c m]|]
  end; try assumption.
  assert (Hb : forallb blank (c :: m) = true).
  { apply Hm; [|exact I]. apply Forall_forall. intros i Hi.
    apply in_map_iff in Hi as (l & <- & _). apply take_blanks_blank. }
  rewrite has_text_join, existsb_map_ext.
  - now rewrite <- has_text_join.
  - intros l. destruct (startswith l (c :: m)) eqn:E; [|reflexivity].
    rewrite (startswith_skipn _ _ E) at 2.
    now rewrite has_text_app, (blanks_no_text _ Hb).
Qed.

Lemma has_text_first (s : String.string) (tail : pystr) (ls : list pystr) :
  has_text (lit s) = true -> existsb has_text ((lit s ++ tail) :: ls) = true.
Proof. intros H. simpl. now rewrite has_text_app, H. Qed.

(** Every template of [render_comment] opens with a greeting, so the
    comment of a closing category is never empty. *)
Lemma render_comment_has_text (issue : IssueData) (category : pystr)
    (reasons : list pystr) :
  In category closing_categories ->
  has_text (render_comment issue category reasons) = true.
Proof.
  intros H. unfold closing_categories in H.
  repeat (destruct H as [<- | H]); try contradiction;
    unfold render_comment; cbv zeta;
    repeat match goal with
    | |- context [str_eqb (lit ?a) (lit ?b)] =>
        let v := eval vm_compute in (str_eqb (lit a) (lit b)) in
        change (str_eqb (lit a) (lit b)) with v; cbv iota
    end;
    rewrite ?has_text_strip, ?has_text_dedent, has_text_join;
    now apply has_text_first.
Qed.

(** ** The decision engine *)

Lemma plugin_repo_supported (r : pystr) :
  str_in r PLUGIN_REPOS = true -> str_in r SUPPORTED_REPOS = true.
Proof.
  rewrite !str_in_In. unfold SUPPORTED_REPOS. intros H. apply in_or_app. now left.
Qed.

Lemma core_like_repo_supported (r : pystr) :
  str_in r CORE_LIKE_REPOS = true -> str_in r SUPPORTED_REPOS = true.
Proof.
  rewrite !str_in_In. unfold SUPPORTED_REPOS. intros H. apply in_or_app. now right.
Qed.

(** The plugin repositories and the core-like ones are disjoint. *)
Lemma core_like_repo_not_plugin (r : pystr) :
  str_in r CORE_LIKE_REPOS = true -> str_in r PLUGIN_REPOS = false.
Proof.
  rewrite str_in_In. intros H.
  repeat (destruct H as [<- | H]; [reflexivity|]). destruct H.
Qed.

Lemma inl_inj {A B : Type} (x y : A) : @inl A B x = inl y -> x = y.
Proof. congruence. Qed.

(** The branches of [decide] that return the decision of [H], one goal
    for each [return]. *)
Ltac decide_branches H :=
  unfold decide, bind in H; cbv zeta in H;
  repeat match type of H with
  | context [if ?b then _ else _] => destruct b eqn:?; cbv beta iota in H
  | context [match ?o with Some _ => _ | None => _ end] =>
      destruct o eqn:?; cbv beta iota in H
  | context [match ?o with inl _ => _ | inr _ => _ end] =>
      destruct o eqn:?; cbv beta iota in H
  end;
  try discriminate H;
  apply inl_inj in H; subst;
  cbn [action category reasons comment no_comment].

Section Decisions.
Context {R : PyRuntime}.

(** C2, amended: for every issue of a supported repository whose state,
    upper-cased, is not [OPEN], [decide] returns the action [skip] with the
    category [not-open], whatever the title, the body and the labels. *)
Theorem decide_state_gate (issue : IssueData) :
  str_in (repo issue) SUPPORTED_REPOS = true ->
  upper (state issue) <> lit "OPEN" ->
  exists decision,
    decide issue = inl decision
    /\ action decision = lit "skip" /\ category decision = lit "not-open".
Proof.
  intros Hsup Hstate. unfold decide. rewrite Hsup. cbn [negb].
  destruct (str_eqb (upper (state issue)) (lit "OPEN")) eqn:E.
  - apply str_eqb_eq in E. contradiction.
  - eexists. split; [reflexivity|]. split; reflexivity.
Qed.

(** C6: for every open issue of a plugin repository whose maximum CJK ratio
    (over the title with the sanitized body, and over the sanitized body
    alone) is at least 0.20, [decide] closes with the category [language],
    whether the issue looks like a question or not. *)
Theorem decide_plugin_language_first (issue : IssueData) :
  str_in (repo issue) PLUGIN_REPOS = true ->
  is_open issue = true ->
  (CJK_RATIO_THRESHOLD <= max_cjk_ratio issue)%Q ->
  exists decision,
    decide issue = inl decision
    /\ action decision = lit "close" /\ category decision = lit "language".
Proof.
  intros Hplug Hopen Hratio. unfold decide.
  rewrite (plugin_repo_supported _ Hplug). cbn [negb].
  unfold is_open in Hopen. rewrite Hopen. cbn [negb]. rewrite Hplug.
  apply Qle_bool_iff in Hratio. unfold max_cjk_ratio in Hratio. rewrite Hratio.
  eexists. split; [reflexivity|]. split; reflexivity.
Qed.

(** C7: for every open issue of a core-like repository with a non-empty
    list of linked pull requests, [decide] returns the action [skip] with
    the category [linked-pr], whatever the author association and the
    body. *)
Theorem decide_linked_pr_first (issue : IssueData) :
  str_in (repo issue) CORE_LIKE_REPOS = true ->
  is_open issue = true ->
  linked_prs issue <> [] ->
  exists decision,
    decide issue = inl decision
    /\ action decision = lit "skip" /\ category decision = lit "linked-pr".
Proof.
  intros Hcore Hopen Hprs. unfold decide.
  rewrite (core_like_repo_supported _ Hcore). cbn [negb].
  unfold is_open in Hopen. rewrite Hopen. cbn [negb].
  rewrite (core_like_repo_not_plugin _ Hcore), Hcore.
  destruct (linked_prs issue) as [|pr prs]; [contradiction|].
  eexists. split; [reflexivity|]. split; reflexivity.
Qed.

Lemma nonempty_true {A : Type} (l : list A) : nonempty l = true -> l <> [].
Proof. now destruct l. Qed.

Ltac literals_differ :=
  let E := fresh in intros E; vm_compute in E; discriminate E.

(** C8: for an issue of a plugin repository [decide] never returns the
    category [core-standards] nor [outdated-version], and for an issue of a
    core-like repository it never returns the category [unclear]. *)
Theorem decide_category_exclusive (issue : IssueData) (decision : Decision) :
  decide issue = inl decision ->
  (str_in (repo issue) PLUGIN_REPOS = true ->
   category decision <> lit "core-standards"
   /\ category decision <> lit "outdated-version")
  /\ (str_in (repo issue) CORE_LIKE_REPOS = true ->
      category decision <> lit "unclear").
Proof.
  intros H. split.
  - intros Hplug. split; decide_branches H; solve [literals_differ | congruence].
  - intros Hcore. pose proof (core_like_repo_not_plugin _ Hcore) as Hplug.
    decide_branches H; solve [literals_differ | congruence].
Qed.

(** C9: the decision [decide] returns has a non-empty list of reasons
    whenever its action is [close], and its comment is non-empty if and only
    if its action is [close]. *)
Theorem decide_close_invariant (issue : IssueData) (decision : Decision) :
  decide issue = inl decision ->
  (action decision = lit "close" -> reasons decision <> [])
  /\ (comment decision <> [] <-> action decision = lit "close").
Proof.
  assert (Hc : forall category reasons,
             In category closing_categories ->
             render_comment issue category reasons <> []).
  { intros c rs Hin. now apply has_text_nonempty, render_comment_has_text. }
  intros Hd.
  decide_branches Hd; (split; [|split]); intros H;
    solve [ reflexivity
          | discriminate
          | now apply nonempty_true
          | exfalso; now apply H
          | exfalso; revert H; literals_differ
          | apply Hc; simpl; tauto ].
Qed.

End Decisions.

(** ** The classifiers *)

Section Classifiers.
Context {R : PyRuntime}.

Lemma sanitize_lines_keeps (line : pystr) (lines : list pystr) (in_self_checks : bool) :
  In line lines ->
  (forall snippet, In snippet ALLOWED_SELF_CHECKS_CJK_SNIPPETS ->
                   contains line snippet = false) ->
  In line (sanitize_lines in_self_checks lines).
Proof.
  intros Hin Hno. revert in_self_checks.
  induction lines as [|l lines IH]; intros flag; [destruct Hin|].
  assert (Hsnip : l = line ->
            existsb (fun snippet => contains l snippet)
                    ALLOWED_SELF_CHECKS_CJK_SNIPPETS = false).
  { intros ->. apply not_true_is_false. intros E.
    apply existsb_exists in E as (s & Hs & E). now rewrite (Hno s Hs) in E. }
  cbn [sanitize_lines]. destruct Hin as [-> | Hin].
  - destruct (found _); [now left|].
    rewrite (Hsnip eq_refl), andb_false_r. now left.
  - destruct (found _); [right; now apply IH|].
    destruct (flag && _); [|right; now apply IH].
    destruct (str_in _ CHECKBOX_ONLY); [|right]; now apply IH.
Qed.

(** C3, amended: no fenced code block is removed before the analyses.
    [sanitize_body_for_cjk] joins lines among which is every line of the
    body that holds none of the two allowed snippets, the lines of a fenced
    code block with the others; and the effective content of a body without
    template sections is the whole body, normalized. *)
Theorem fenced_code_is_kept (body : pystr) :
  (forall line,
     In line (splitlines body) ->
     (forall snippet, In snippet ALLOWED_SELF_CHECKS_CJK_SNIPPETS ->
                      contains line snippet = false) ->
     exists kept, sanitize_body_for_cjk body = join nl kept /\ In line kept)
  /\ (extract_template_sections body = [] ->
      effective_content body = normalize_space body).
Proof.
  split.
  - intros line Hin Hno. exists (sanitize_lines false (splitlines body)).
    split; [reflexivity | now apply sanitize_lines_keeps].
  - intros Hnone. unfold effective_content. now rewrite Hnone.
Qed.

(** C4, amended: when the normalized body is empty, [unclear_reasons]
    returns the reason about the title, if the title is too short or
    generic, followed by the one reason that the description is empty, and
    makes no further check. *)
Theorem unclear_reasons_empty_body (issue : IssueData) :
  normalize_space (body issue) = [] ->
  unclear_reasons issue =
    (if title_too_generic 8 (normalize_space (title issue))
     then [lit "Title is too short or generic."] else [])
    ++ [lit "Description is empty."].
Proof.
  intros Hempty. unfold unclear_reasons. cbv zeta. rewrite Hempty. reflexivity.
Qed.



Lemma content_parts_all_skipped (sections : list (pystr * pystr)) :
  Forall (fun s => checklist_heading (fst s) = true
                   \/ non_response (snd s) = true
                   \/ checkbox_only (snd s) = true) sections ->
  content_parts sections = [].
Proof.
  induction 1 as [|[heading content] sections Hs _ IH]; [reflexivity|].
  simpl in *. rewrite IH.
  destruct (checklist_heading heading); [reflexivity|].
  destruct (non_response content); [reflexivity|].
  destruct (checkbox_only content); [reflexivity|].
  now destruct Hs as [H | [H | H]].
Qed.

(** C10: when the body has template sections and every one of them is
    skipped (a checklist heading, an empty or no-response content, or a
    content of checkbox lines only), [effective_content] is the whole body,
    normalized, and not the empty string. *)
Theorem effective_content_all_skipped (body : pystr) :
  extract_template_sections body <> [] ->
  Forall (fun s => checklist_heading (fst s) = true
                   \/ non_response (snd s) = true
                   \/ checkbox_only (snd s) = true)
         (extract_template_sections body) ->
  effective_content body = normalize_space body.
Proof.
  intros Hsome Hall. unfold effective_content. cbv zeta.
  rewrite (content_parts_all_skipped Hall).
  now destruct (extract_template_sections body).
Qed.

End Classifiers.

(** ** The properties on the example issues *)

Abbreviation on_ascii := ascii_runtime (only parsing).

(** C2, as stated, fails on a closed issue of a repository that is not
    supported: the repository is looked at before the state. *)
Lemma closed_foreign_issue_is_unsupported :
  str_eqb (state closed_foreign_issue) (lit "open") = false
  /\ option_map action (returned (decide (R := on_ascii) closed_foreign_issue))
     = Some (lit "skip")
  /\ option_map category (returned (decide (R := on_ascii) closed_foreign_issue))
     = Some (lit "unsupported-repo")
  /\ option_map (fun decision => str_eqb (category decision) (lit "not-open"))
       (returned (decide (R := on_ascii) closed_foreign_issue))
     = Some false.
Proof. repeat split. Qed.

Lemma decide_state_gate_closed_plugin_issue :
  str_in (repo closed_plugin_issue) SUPPORTED_REPOS = true
  /\ str_eqb (upper (PyRuntime := on_ascii) (state closed_plugin_issue)) (lit "OPEN") = false
  /\ exists decision,
       decide (R := on_ascii) closed_plugin_issue = inl decision
       /\ action decision = lit "skip" /\ category decision = lit "not-open".
Proof.
  split; [reflexivity|]. split; [reflexivity|].
  apply (decide_state_gate (R := on_ascii) closed_plugin_issue).
  - reflexivity.
  - intros E. vm_compute in E. discriminate E.
Defined.

(** C3, as stated, fails: a fenced code block added to the body stays in
    the text [cjk_ratio] is computed over and in the effective content, and
    turns an issue closed as unclear into one closed for its language. *)
Lemma fenced_code_changes_the_analysis :
  sanitize_body_for_cjk (R := on_ascii) fenced_body = fenced_body
  /\ cjk_ratio (sanitize_body_for_cjk (R := on_ascii) plain_body) = (0 # 34)%Q
  /\ cjk_ratio (sanitize_body_for_cjk (R := on_ascii) fenced_body) = (12 # 52)%Q
  /\ length (effective_content (R := on_ascii) plain_body) = 40
  /\ length (effective_content (R := on_ascii) fenced_body) = 61
  /\ option_map category (returned (decide (R := on_ascii)
       (example_issue (lit "langgenius/dify-plugins")
          (lit "Importer stops after the first page") plain_body
          (lit "OPEN") (lit "NONE") []))) = Some (lit "unclear")
  /\ option_map category (returned (decide (R := on_ascii)
       (example_issue (lit "langgenius/dify-plugins")
          (lit "Importer stops after the first page") fenced_body
          (lit "OPEN") (lit "NONE") []))) = Some (lit "language").
Proof. repeat split; vm_compute; reflexivity. Qed.

(** C4, as stated, fails on an empty body under a generic title: two
    reasons are returned. *)
Lemma generic_title_empty_body_two_reasons :
  normalize_space (R := on_ascii) (body generic_title_issue) = []
  /\ unclear_reasons (R := on_ascii) generic_title_issue =
     [lit "Title is too short or generic."; lit "Description is empty."].
Proof. split; vm_compute; reflexivity. Qed.

Lemma unclear_reasons_blank_body_issue :
  normalize_space (R := on_ascii) (body blank_body_issue) = []
  /\ unclear_reasons (R := on_ascii) blank_body_issue = [lit "Description is empty."].
Proof.
  split; [vm_compute; reflexivity|].
  rewrite (unclear_reasons_empty_body (R := on_ascii) blank_body_issue).
  - vm_compute; reflexivity.
  - vm_compute; reflexivity.
Defined.



Lemma decide_plugin_language_first_cjk_question :
  looks_like_question (R := on_ascii) cjk_question_issue = true
  /\ exists decision,
       decide (R := on_ascii) cjk_question_issue = inl decision
       /\ action decision = lit "close" /\ category decision = lit "language".
Proof.
  split; [vm_compute; reflexivity|].
  apply (decide_plugin_language_first (R := on_ascii) cjk_question_issue).
  - vm_compute; reflexivity.
  - vm_compute; reflexivity.
  - vm_compute. discriminate.
Defined.

Lemma decide_linked_pr_first_untrusted_author :
  str_in (upper (PyRuntime := on_ascii) (author_association linked_pr_issue))
         SKIP_ASSOCIATIONS = false
  /\ nonempty (core_standard_violations (R := on_ascii) linked_pr_issue) = true
  /\ exists decision,
       decide (R := on_ascii) linked_pr_issue = inl decision
       /\ action decision = lit "skip" /\ category decision = lit "linked-pr".
Proof.
  split; [vm_compute; reflexivity|]. split; [vm_compute; reflexivity|].
  apply (decide_linked_pr_first (R := on_ascii) linked_pr_issue).
  - vm_compute; reflexivity.
  - vm_compute; reflexivity.
  - discriminate.
Defined.

Lemma effective_content_skipped_sections_body :
  effective_content (R := on_ascii) skipped_sections_body
  = lit "## Self Checks - [x] I have searched the issues ## Description _No response_".
Proof.
  rewrite (effective_content_all_skipped (R := on_ascii) skipped_sections_body).
  - vm_compute; reflexivity.
  - vm_compute. discriminate.
  - assert (E : extract_template_sections (R := on_ascii) skipped_sections_body
                = [(lit "Self Checks", lit "- [x] I have searched the issues");
                   (lit "Description", lit "_No response_")])
      by (vm_compute; reflexivity).
    rewrite E. constructor; [left; vm_compute; reflexivity|].
    constructor; [right; left; vm_compute; reflexivity | constructor].
Defined.

(** The scenarios of the specification, run on the code. *)

Example plugin_empty_body_is_unclear :
  let d := returned (decide (R := on_ascii) blank_body_issue) in
  option_map action d = Some (lit "close") /\ option_map category d = Some (lit "unclear")
  /\ option_map reasons d = Some [lit "Description is empty."].
Proof. repeat split; vm_compute; reflexivity. Qed.

Example plugin_question_title_is_question :
  let d := returned (decide (R := on_ascii)
             (example_issue (lit "langgenius/dify-plugins")
                (lit "How do I configure SSO?") [] (lit "OPEN") (lit "NONE") [])) in
  option_map action d = Some (lit "close") /\ option_map category d = Some (lit "question").
Proof. repeat split; vm_compute; reflexivity. Qed.

Example core_member_is_trusted :
  let d := returned (decide (R := on_ascii) member_issue) in
  option_map action d = Some (lit "skip")
  /\ option_map category d = Some (lit "trusted-author")
  /\ option_map reasons d
     = Some [lit "Author association is MEMBER; skip review per policy."].
Proof. repeat split; vm_compute; reflexivity. Qed.

Example core_old_version_is_outdated :
  let d := returned (decide (R := on_ascii) old_version_issue) in
  option_map action d = Some (lit "close")
  /\ option_map category d = Some (lit "outdated-version")
  /\ option_map reasons d
     = Some [lit "Reported Dify version is v1.5.0, which is below v1.10.0."].
Proof. repeat split; vm_compute; reflexivity. Qed.

(** The matcher on the patterns of the module. *)

Example heading_patterns :
  found (re_match (R := on_ascii) HEADING_RE (lit "## Steps to reproduce")) = true
  /\ found (re_match (R := on_ascii) HEADING_RE (lit "#Steps")) = false
  /\ found (re_match (R := on_ascii) HEADING_RE (lit "####### Steps")) = false
  /\ found (re_match (R := on_ascii) SELF_CHECKS_HEADER_RE (lit "### self checks")) = true
  /\ found (re_match (R := on_ascii) SELF_CHECKS_HEADER_RE (lit "### Self Checks done")) = false
  /\ found (re_match (R := on_ascii) CHECKBOX_RE (lit "- [x] I have searched")) = true
  /\ found (re_match (R := on_ascii) CHECKBOX_RE (lit "-[y]")) = false.
Proof. repeat split. Qed.

Example word_patterns :
  found (re_fullmatch (R := on_ascii) GENERIC_TITLE_RE (lit "Bug Report")) = true
  /\ found (re_fullmatch (R := on_ascii) GENERIC_TITLE_RE (lit "doesnt work")) = true
  /\ found (re_fullmatch (R := on_ascii) GENERIC_TITLE_RE (lit "bug reports")) = false
  /\ found (re_search (R := on_ascii) PLACEHOLDER_RE (lit "logs: N/A")) = true
  /\ found (re_search (R := on_ascii) PLACEHOLDER_RE (lit "a banana")) = false
  /\ found (re_search (R := on_ascii) BUG_MARKERS_RE (lit "it fails often")) = true
  /\ found (re_search (R := on_ascii) BUG_MARKERS_RE (lit "failed")) = false
  /\ found (re_match (R := on_ascii) QUESTION_START_RE (lit "Is it down")) = true
  /\ found (re_match (R := on_ascii) QUESTION_START_RE (lit "Issue with login")) = false.
Proof. repeat split. Qed.

Example version_patterns :
  parse_semver (R := on_ascii) (lit "running v1.9 on docker") = inl (Some (1, 9, 0)%N)
  /\ parse_semver (R := on_ascii) (lit "build 0.15.3-fix") = inl (Some (0, 15, 3)%N)
  /\ parse_semver (R := on_ascii) (lit "version 12") = inl None
  /\ extract_dify_version (R := on_ascii) (lit "we use Dify 1.9.2 here")
     = inl (Some (1, 9, 2)%N)
  /\ extract_dify_version (R := on_ascii) (lit "no version given") = inl None.
Proof. repeat split. Qed.

(** A number with more digits than the limit of [int]: the exception goes
    through [extract_dify_version] and [decide], and [main] reports it. *)
Example long_version_raises :
  extract_dify_version (R := on_ascii) long_version_body = inr (DigitLimit 4300 4301)
  /\ decide (R := on_ascii) long_version_issue = inr (DigitLimit 4300 4301)
  /\ main (R := on_ascii) ascii_isdigit (fun s => s) fetch_long_version_issue run_ok
       no_json apply_args
     = ([PrintErr (lit "[ERROR] Exceeds the limit (4300 digits) for integer string conversion: value has 4301 digits; use sys.set_int_max_str_digits() to increase the limit")],
        1%Z).
Proof.
  split; [vm_compute; reflexivity|]. split; vm_compute; reflexivity.
Qed.

(** The percentage of the reason of the category [language]: the double
    nearest to 23/80 is below it, and so is its product with 100. *)
Example percentages :
  percent1 (23 # 80) = lit "28.7%"
  /\ percent1 (1 # 5) = lit "20.0%"
  /\ percent1 (1 # 8) = lit "12.5%"
  /\ percent1 (2 # 3) = lit "66.7%"
  /\ percent1 (2 # 1) = lit "200.0%".
Proof.
  split; [vm_compute; reflexivity|]. split; [vm_compute; reflexivity|].
  split; [vm_compute; reflexivity|]. split; vm_compute; reflexivity.
Qed.

Example text_functions :
  splitlines (lit "a" ++ [13; 10]%N ++ lit "b" ++ nl) = [lit "a"; lit "b"]
  /\ splitlines (lit "a" ++ nl ++ nl ++ lit "b") = [lit "a"; []; lit "b"]
  /\ normalize_space (R := on_ascii) (lit "  two   words " ++ nl) = lit "two words"
  /\ strip ([0x3000]%N ++ lit " x ") = lit "x"
  /\ replace_empty (lit "abcabcab") (lit "bc") = lit "aaab"
  /\ dedent (lit "    a" ++ nl ++ lit "  " ++ nl ++ lit "      b") = lit "a" ++ nl ++ nl ++ lit "  b"
  /\ str 1050 = lit "1050".
Proof. repeat split. Qed.

(** * Further properties of the module *)

(** ** [dedupe] *)

Lemma dedupe_from_In (x : pystr) (items seen : list pystr) :
  In x (dedupe_from seen items) <-> In x items /\ ~ In x seen.
Proof.
  revert seen; induction items as [|item items IH]; intros seen; simpl.
  - tauto.
  - destruct (str_in item seen) eqn:E; simpl.
    + apply str_in_In in E. rewrite IH. split.
      * intros [H1 H2]. tauto.
      * intros [[-> | H1] H2]; [contradiction | tauto].
    + assert (Hn : ~ In item seen).
      { intros H. apply str_in_In in H. congruence. }
      rewrite IH. simpl. split.
      * intros [<- | [H1 H2]]; [tauto|]. split; [tauto|]. intros H. apply H2. now right.
      * intros [[<- | H1] H2]; [now left|].
        destruct (list_eq_dec N.eq_dec item x) as [-> | Hne]; [now left|].
        right. split; [assumption|]. intros [H | H]; [contradiction | contradiction].
Qed.

Lemma dedupe_from_NoDup (items seen : list pystr) : NoDup (dedupe_from seen items).
Proof.
  revert seen; induction items as [|item items IH]; intros seen; simpl.
  - constructor.
  - destruct (str_in item seen); simpl; [apply IH|].
    constructor; [|apply IH].
    rewrite dedupe_from_In. intros [_ H]. apply H. now left.
Qed.

Lemma dedupe_NoDup (items : list pystr) : NoDup (dedupe items).
Proof. apply dedupe_from_NoDup. Qed.

Lemma dedupe_In (x : pystr) (items : list pystr) : In x (dedupe items) <-> In x items.
Proof. unfold dedupe. rewrite dedupe_from_In. simpl. tauto. Qed.

(** [dedupe] returns the items it is given, each of them once. *)
Theorem dedupe_members_once (items : list pystr) :
  NoDup (dedupe items) /\ (forall x, In x (dedupe items) <-> In x items).
Proof.
  split; [apply dedupe_NoDup | intros x; apply dedupe_In].
Qed.

Lemma dedupe_from_fixed (items seen : list pystr) :
  NoDup items -> (forall x, In x items -> ~ In x seen) ->
  dedupe_from seen items = items.
Proof.
  intros Hnd. revert seen.
  induction Hnd as [|item items Hnotin _ IH]; intros seen Hseen; [reflexivity|].
  simpl. destruct (str_in item seen) eqn:E.
  - apply str_in_In in E. exfalso. apply (Hseen item); [now left | assumption].
  - simpl. f_equal. apply IH. intros x Hx [<- | H].
    + contradiction.
    + apply (Hseen x); [now right | assumption].
Qed.

(** A list without a repeated item comes back unchanged. *)
Lemma dedupe_without_duplicates (items : list pystr) :
  NoDup items -> dedupe items = items.
Proof.
  intros H. apply dedupe_from_fixed; [assumption | intros x _ []].
Qed.

Lemma str_in_cons (x a : pystr) (l : list pystr) :
  str_in x (a :: l) = str_eqb x a || str_in x l.
Proof. reflexivity. Qed.

Lemma str_in_app (x : pystr) (a b : list pystr) :
  str_in x (a ++ b) = str_in x a || str_in x b.
Proof. unfold str_in. apply existsb_app. Qed.

(** [dedupe_from] looks at the items seen only through membership. *)
Lemma dedupe_from_same_seen (items seen seen' : list pystr) :
  (forall x, str_in x seen = str_in x seen') ->
  dedupe_from seen items = dedupe_from seen' items.
Proof.
  revert seen seen'. induction items as [|item items IH]; intros seen seen' H;
    [reflexivity|].
  cbn [dedupe_from]. rewrite <- (H item).
  destruct (str_in item seen); cbn [negb]; [now apply IH|].
  f_equal. apply IH. intros x. rewrite !str_in_cons. now rewrite (H x).
Qed.

Lemma dedupe_from_app (a b seen : list pystr) :
  dedupe_from seen (a ++ b) = dedupe_from seen a ++ dedupe_from (a ++ seen) b.
Proof.
  revert seen. induction a as [|item a IH]; intros seen; [reflexivity|].
  cbn [app dedupe_from]. destruct (str_in item seen) eqn:E; cbn [negb].
  - rewrite IH. f_equal. apply dedupe_from_same_seen. intros x.
    change ((item :: a) ++ seen) with (item :: a ++ seen).
    rewrite str_in_cons, !str_in_app.
    destruct (str_eqb x item) eqn:Ex; [|reflexivity].
    apply str_eqb_eq in Ex. subst x. rewrite E. now rewrite orb_true_r.
  - rewrite IH. cbn [app]. do 2 f_equal. apply dedupe_from_same_seen. intros x.
    rewrite !str_in_app, !str_in_cons, str_in_app.
    now destruct (str_eqb x item), (str_in x a).
Qed.

Lemma dedupe_from_filter (items seen' seen : list pystr) :
  dedupe_from (seen' ++ seen) items
  = dedupe_from seen' (filter (fun y => negb (str_in y seen)) items).
Proof.
  revert seen'. induction items as [|item items IH]; intros seen'; [reflexivity|].
  cbn [dedupe_from filter]. rewrite str_in_app.
  destruct (str_in item seen) eqn:E; cbn [negb].
  - rewrite orb_true_r. cbn [negb]. apply IH.
  - rewrite orb_false_r. cbn [dedupe_from].
    destruct (str_in item seen'); cbn [negb]; [apply IH|].
    f_equal. apply (IH (item :: seen')).
Qed.

(** [dedupe] keeps the order of the first occurrences: up to the first
    occurrence of an item the result is the result for the items before it,
    then comes the item, and then the result for the later items that are
    new. *)
Theorem dedupe_first_occurrences (before after : list pystr) (item : pystr) :
  ~ In item before ->
  dedupe (before ++ item :: after)
  = dedupe before
    ++ item :: dedupe (filter (fun y => negb (str_in y (item :: before))) after).
Proof.
  intros Hnew. unfold dedupe. rewrite dedupe_from_app. f_equal.
  rewrite app_nil_r. cbn [dedupe_from].
  destruct (str_in item before) eqn:E.
  - apply str_in_In in E. contradiction.
  - cbn [negb]. f_equal. apply (dedupe_from_filter after [] (item :: before)).
Qed.

(** Running [dedupe] on its own result changes nothing. *)
Theorem dedupe_idempotent (items : list pystr) :
  dedupe (dedupe items) = dedupe items.
Proof.
  apply dedupe_from_fixed; [apply dedupe_NoDup | intros x _ []].
Qed.

Lemma dedupe_first_occurrences_example :
  dedupe ([lit "Include Dify version."]
          ++ lit "Include steps to reproduce."
             :: [lit "Include Dify version."; lit "Include steps to reproduce.";
                 lit "Include expected behavior."])
  = dedupe [lit "Include Dify version."]
    ++ lit "Include steps to reproduce."
       :: dedupe (filter (fun y => negb (str_in y [lit "Include steps to reproduce.";
                                                   lit "Include Dify version."]))
                    [lit "Include Dify version."; lit "Include steps to reproduce.";
                     lit "Include expected behavior."]).
Proof.
  apply dedupe_first_occurrences.
  intros [E | []]. vm_compute in E. discriminate E.
Defined.

(** ** [decide]: what each outcome tells *)

Section Outcomes.
Context {R : PyRuntime}.

(** One goal for each [return] of [decide] that gives the decision of [H],
    with the tests that lead to it as hypotheses. *)
Ltac decide_returns H := unfold is_open, max_cjk_ratio; decide_branches H.

Ltac not_this_literal :=
  match goal with
  | H : lit _ = lit _ |- _ => vm_compute in H; discriminate H
  | H : lit _ <> lit _ |- _ => exfalso; apply H; reflexivity
  end.

Lemma decide_unsupported_repo (issue : IssueData) :
  str_in (repo issue) SUPPORTED_REPOS = false ->
  decide issue =
    inl (no_comment (lit "skip") (lit "unsupported-repo")
           [lit "Repository '" ++ repo issue ++ lit "' is not supported by this skill."]).
Proof. intros H. unfold decide. now rewrite H. Qed.

(** The category of a decision that skips tells which test fired, and each
    of these tests gives its category: [unsupported-repo] for a repository
    outside the supported ones, [not-open] for a supported repository and
    a state other than [OPEN], [linked-pr] for an open issue of a core-like
    repository with linked pull requests, [trusted-author] for one without
    them whose author association is one of [SKIP_ASSOCIATIONS]. *)
Theorem decide_skip_sound (issue : IssueData) (decision : Decision) :
  decide issue = inl decision ->
  (category decision = lit "unsupported-repo"
   <-> str_in (repo issue) SUPPORTED_REPOS = false)
  /\ (category decision = lit "not-open"
      <-> str_in (repo issue) SUPPORTED_REPOS = true /\ is_open issue = false)
  /\ (category decision = lit "linked-pr"
      <-> str_in (repo issue) CORE_LIKE_REPOS = true /\ is_open issue = true
          /\ linked_prs issue <> [])
  /\ (category decision = lit "trusted-author"
      <-> str_in (repo issue) CORE_LIKE_REPOS = true /\ is_open issue = true
          /\ linked_prs issue = []
          /\ str_in (upper (author_association issue)) SKIP_ASSOCIATIONS = true).
Proof.
  assert (Hnil : forall l : list pystr, nonempty l = false -> l = []).
  { now intros [|]. }
  pose proof (core_like_repo_not_plugin (repo issue)) as Hcp.
  pose proof (core_like_repo_supported (repo issue)) as Hcs.
  intros H. decide_returns H;
    repeat match goal with
    | E : negb _ = false |- _ => apply (proj1 (negb_false_iff _)) in E
    | E : negb _ = true |- _ => apply (proj1 (negb_true_iff _)) in E
    | E : andb _ _ = true |- _ => apply andb_prop in E as [? ?]
    | E : andb _ _ = false |- _ => apply andb_false_iff in E as [E | E]
    | E : nonempty _ = true |- _ => apply nonempty_true in E
    | E : nonempty _ = false |- _ => apply Hnil in E
    end;
    repeat split; intros;
    repeat match goal with
    | E : _ /\ _ |- _ => destruct E
    end;
    try not_this_literal; try reflexivity; try assumption; try congruence;
    match goal with
    | Hc : str_in (repo issue) CORE_LIKE_REPOS = true |- _ =>
        first [ specialize (Hcp Hc); congruence | specialize (Hcs Hc); congruence ]
    end.
Qed.

(** An open issue of a core-like repository without linked pull requests
    whose author association, upper-cased, is one of [SKIP_ASSOCIATIONS] is
    skipped as [trusted-author], whatever its language and content. *)
Theorem decide_trusted_author (issue : IssueData) :
  str_in (repo issue) CORE_LIKE_REPOS = true ->
  is_open issue = true ->
  linked_prs issue = [] ->
  str_in (upper (author_association issue)) SKIP_ASSOCIATIONS = true ->
  exists decision,
    decide issue = inl decision
    /\ action decision = lit "skip"
    /\ category decision = lit "trusted-author"
    /\ comment decision = [].
Proof.
  intros Hcore Hopen Hprs Htrust. unfold decide.
  rewrite (core_like_repo_supported _ Hcore). cbn [negb].
  unfold is_open in Hopen. rewrite Hopen. cbn [negb].
  rewrite (core_like_repo_not_plugin _ Hcore), Hcore, Hprs. cbn [nonempty andb].
  rewrite Htrust. eexists. repeat split.
Qed.

(** The action and the category of a decision go together: [skip] with one
    of the four skip categories, [close] with one of the five categories
    that have a comment template, [none] with [pass]. *)
Theorem decide_action_matches_category (issue : IssueData) (decision : Decision) :
  decide issue = inl decision ->
  (action decision = lit "skip" /\ In (category decision) skip_categories)
  \/ (action decision = lit "close" /\ In (category decision) closing_categories)
  \/ (action decision = lit "none" /\ category decision = lit "pass").
Proof.
  intros H. decide_returns H;
    first [ left; split; [reflexivity | simpl; tauto]
          | right; left; split; [reflexivity | simpl; tauto]
          | right; right; split; reflexivity ].
Qed.

(** The comment of a decision that closes is the rendering of the
    decision's own category and reasons for the issue's author; any other
    decision has the empty comment. *)
Theorem decide_comment_is_rendered (issue : IssueData) (decision : Decision) :
  decide issue = inl decision ->
  comment decision =
    if str_eqb (action decision) (lit "close")
    then render_comment issue (category decision) (reasons decision)
    else [].
Proof.
  intros H. decide_returns H; reflexivity.
Qed.

(** Only the flagship repository gets the category [outdated-version], and
    only when the version read in the body is below the minimum. *)
Theorem decide_outdated_version_sound (issue : IssueData) (decision : Decision) :
  decide issue = inl decision ->
  category decision = lit "outdated-version" ->
  repo issue = CORE_REPO
  /\ exists v, extract_dify_version (body issue) = inl (Some v)
               /\ version_lt v MIN_DIFY_VERSION = true
               /\ reasons decision =
                  [lit "Reported Dify version is v" ++ version_str v
                   ++ lit ", which is below v" ++ MIN_DIFY_VERSION_STR ++ lit "."].
Proof.
  intros Hd. decide_returns Hd; intros H; try not_this_literal;
    match goal with
    | E : match extract_dify_version (body issue) with _ => _ end = inl (Some _) |- _ =>
        destruct (extract_dify_version (body issue)) as [[w|]|exc] eqn:Hv;
        try discriminate E;
        destruct (version_lt w MIN_DIFY_VERSION) eqn:Hlt; try discriminate E;
        apply inl_inj in E; injection E as <-
    end;
    (split; [now apply str_eqb_eq | exists w; repeat split; assumption]).
Qed.

(** A decision [pass] means that every test was made and none fired: the
    repository is supported, the issue is open, it does not look like a
    question, its CJK ratio is below the threshold, and the quality check of
    its kind of repository found nothing. *)
Theorem decide_pass_sound (issue : IssueData) (decision : Decision) :
  decide issue = inl decision ->
  category decision = lit "pass" ->
  str_in (repo issue) SUPPORTED_REPOS = true
  /\ is_open issue = true
  /\ (max_cjk_ratio issue < CJK_RATIO_THRESHOLD)%Q
  /\ looks_like_question issue = false
  /\ (if str_in (repo issue) PLUGIN_REPOS
      then unclear_reasons issue = []
      else core_standard_violations issue = []).
Proof.
  assert (Hlt : forall r, Qle_bool CJK_RATIO_THRESHOLD r = false ->
                          (r < CJK_RATIO_THRESHOLD)%Q).
  { intros r E. apply Qnot_le_lt. intros H. apply Qle_bool_iff in H. congruence. }
  assert (Hnil : forall l : list pystr, nonempty l = false -> l = []).
  { now intros [|]. }
  intros Hd. decide_returns Hd; intros H; try not_this_literal;
    repeat match goal with
    | E : negb _ = false |- _ => apply negb_false_iff in E
    end;
    repeat match goal with
    | E : str_in (repo issue) PLUGIN_REPOS = _ |- _ => rewrite E
    end;
    repeat split; auto.
Qed.

Lemma category_language_ratio (issue : IssueData) (decision : Decision) :
  decide issue = inl decision ->
  category decision = lit "language" ->
  (CJK_RATIO_THRESHOLD <= max_cjk_ratio issue)%Q.
Proof.
  intros Hd. decide_returns Hd; intros H; try not_this_literal; now apply Qle_bool_iff.
Qed.

(** A decision [language] is made only at or above the threshold, and a
    decision [question] only for an issue that looks like a question and is
    below the threshold. *)
Theorem decide_language_question_sound (issue : IssueData) (decision : Decision) :
  decide issue = inl decision ->
  (category decision = lit "language" ->
   (CJK_RATIO_THRESHOLD <= max_cjk_ratio issue)%Q)
  /\ (category decision = lit "question" ->
      looks_like_question issue = true
      /\ (max_cjk_ratio issue < CJK_RATIO_THRESHOLD)%Q).
Proof.
  assert (Hlt : forall r, Qle_bool CJK_RATIO_THRESHOLD r = false ->
                          (r < CJK_RATIO_THRESHOLD)%Q).
  { intros r E. apply Qnot_le_lt. intros H. apply Qle_bool_iff in H. congruence. }
  intros Hd. split; decide_returns Hd; intros H; try not_this_literal;
    try (now apply Qle_bool_iff); split; auto.
Qed.

End Outcomes.

(** ** Blanks: [strip] and [normalize_space] *)

Lemma lstrip_no_text (s : pystr) : has_text s = false -> lstrip s = [].
Proof.
  induction s as [|c s IH]; [reflexivity|]. simpl.
  destruct (isspace c); simpl; [assumption | discriminate].
Qed.

(** [strip] returns the empty string exactly on the texts made of blanks. *)
Lemma strip_empty_iff (s : pystr) : strip s = [] <-> has_text s = false.
Proof.
  split.
  - intros E. rewrite <- has_text_strip, E. reflexivity.
  - intros H. unfold strip, rstrip. rewrite (@lstrip_no_text _ H). reflexivity.
Qed.

Lemma lstrip_idempotent (s : pystr) : lstrip (lstrip s) = lstrip s.
Proof.
  induction s as [|c s IH]; [reflexivity|]. simpl.
  destruct (isspace c) eqn:E; [assumption | simpl; now rewrite E].
Qed.

Lemma lstrip_snoc (s : pystr) (c : cp) :
  isspace c = false -> lstrip (s ++ [c]) = lstrip s ++ [c].
Proof.
  intros Hc. induction s as [|d s IH]; simpl; [now rewrite Hc|].
  destruct (isspace d); [assumption | reflexivity].
Qed.

Lemma rstrip_cons_text (c : cp) (s : pystr) :
  isspace c = false -> rstrip (c :: s) = c :: rstrip s.
Proof.
  intros Hc. unfold rstrip. simpl. rewrite (@lstrip_snoc _ _ Hc), rev_app_distr.
  reflexivity.
Qed.

Lemma lstrip_rstrip (s : pystr) : lstrip s = s -> lstrip (rstrip s) = rstrip s.
Proof.
  destruct s as [|c s]; [reflexivity|]. simpl.
  destruct (isspace c) eqn:E.
  - intros H. exfalso.
    assert (Hlen : length (lstrip s) <= length s).
    { clear. induction s as [|d s IH]; simpl; [lia|]. destruct (isspace d); simpl; lia. }
    rewrite H in Hlen. simpl in Hlen. lia.
  - intros _. rewrite (@rstrip_cons_text _ _ E). simpl. now rewrite E.
Qed.

Lemma rstrip_idempotent (s : pystr) : rstrip (rstrip s) = rstrip s.
Proof. unfold rstrip. now rewrite rev_involutive, lstrip_idempotent. Qed.

(** Stripping twice is stripping once. *)
Lemma strip_idempotent (s : pystr) : strip (strip s) = strip s.
Proof.
  unfold strip.
  rewrite (@lstrip_rstrip (lstrip s) (lstrip_idempotent s)).
  apply rstrip_idempotent.
Qed.

Section Blanks.
Context {R : PyRuntime}.

(** Where [search_from] finds a match: the match starts on a suffix of the
    text, and is the one [rmatch] finds there. *)
Lemma search_from_found (r : regex) (s : pystr) (p : option cp) (st st' : mstate) :
  search_from r p s = Some (st, st') ->
  rmatch r st Some = Some st'
  /\ exists before, s = before ++ rest st /\ length before = length s - length (rest st).
Proof.
  revert p. induction s as [|c s IH]; intros p; cbn [search_from]; cbv zeta.
  - destruct (rmatch r {| prev := p; rest := []; caps := [] |} Some)
      as [res|] eqn:E; [|discriminate].
    intros H. inversion H; subst. split; [exact E|]. now exists [].
  - destruct (rmatch r {| prev := p; rest := c :: s; caps := [] |} Some)
      as [res|] eqn:E.
    + intros H. inversion H; subst. split; [exact E|]. exists [].
      cbn [rest app length]. split; [reflexivity | lia].
    + intros H. apply IH in H as (Hm & before & Hs & Hlen). split; [assumption|].
      exists (c :: before). split; [simpl; now f_equal|].
      pose proof (f_equal (@length cp) Hs) as Hl. rewrite length_app in Hl.
      cbn [length]. lia.
Qed.

(** A repetition of a character class takes a run of characters of the
    class and hands the rest to what follows. *)
Lemma rep_class_consumes (p : cp -> bool) (greedy : bool) (lo : nat) (hi : option nat)
    (fuel cnt : nat) (st : mstate) (k : cont) (res : mstate) :
  rep_loop (rmatch (Chr p)) greedy lo hi fuel cnt st k = Some res ->
  exists st' w, k st' = Some res /\ rest st = w ++ rest st' /\ forallb p w = true.
Proof.
  revert cnt st. induction fuel as [|fuel IH]; intros cnt st;
    cbn [rep_loop]; cbv zeta;
    (assert (Hstop : (if Nat.leb lo cnt then k st else None) = Some res ->
       exists st' w, k st' = Some res /\ rest st = w ++ rest st' /\ forallb p w = true)
      by (destruct (Nat.leb lo cnt); [|discriminate]; intros H; exists st, [];
          now repeat split)).
  - destruct greedy; unfold or_else; [exact Hstop|].
    destruct (if Nat.leb lo cnt then k st else None); [exact Hstop | discriminate].
  - assert (Hmore :
      (if below cnt hi
       then rmatch (Chr p) st (fun st' =>
              if Nat.ltb (length (rest st')) (length (rest st))
              then rep_loop (rmatch (Chr p)) greedy lo hi fuel (S cnt) st' k
              else None)
       else None) = Some res ->
      exists st' w, k st' = Some res /\ rest st = w ++ rest st' /\ forallb p w = true).
    { destruct (below cnt hi); [|discriminate]. cbn [rmatch].
      destruct (rest st) as [|c s'] eqn:Hrest; [discriminate|].
      destruct (p c) eqn:Hp; [|discriminate].
      cbn [step rest]. destruct (Nat.ltb _ _); [|discriminate].
      intros H. apply IH in H as (st' & w & Hk & Hw & Hall).
      exists st', (c :: w). cbn [step rest] in Hw. cbn [app forallb].
      rewrite Hw, Hp, Hall. now repeat split. }
    destruct greedy; unfold or_else.
    + match goal with |- match ?m with _ => _ end = _ -> _ =>
        destruct m as [x|] end; [exact Hmore | exact Hstop].
    + match goal with |- match ?m with _ => _ end = _ -> _ =>
        destruct m as [x|] end; [exact Hstop | exact Hmore].
Qed.

Lemma isspace_run_no_text (w : pystr) : forallb isspace w = true -> has_text w = false.
Proof.
  induction w as [|c w IH]; [reflexivity|]. simpl. intros H.
  apply andb_true_iff in H as [Hc Hw]. now rewrite Hc, IH.
Qed.

Lemma has_text_collapse (fuel : nat) (p : option cp) (s : pystr) :
  has_text (sub_from fuel (plus ws) (lit " ") p s) = has_text s.
Proof.
  revert p s. induction fuel as [|fuel IH]; intros p s; [reflexivity|].
  cbn [sub_from].
  destruct (search_from (plus ws) p s) as [[st st']|] eqn:E; [|reflexivity].
  apply search_from_found in E as (Hm & before & Hs & Hlen).
  change (rmatch (plus ws) st Some)
    with (rep_loop (rmatch (Chr isspace)) true 1 None (S (length (rest st))) 0 st Some)
    in Hm.
  apply rep_class_consumes in Hm as (st2 & w & Hk & Hw & Hall).
  injection Hk as ->.
  assert (Hfirst : firstn (length s - length (rest st)) s = before).
  { rewrite <- Hlen, Hs. now rewrite firstn_app, Nat.sub_diag, firstn_all, app_nil_r. }
  assert (Hts : has_text s = has_text before || has_text (rest st)).
  { rewrite <- has_text_app. now f_equal. }
  rewrite Hfirst, has_text_app, Hts.
  destruct (Nat.ltb _ _); [|reflexivity].
  rewrite has_text_app, IH, Hw, has_text_app.
  now rewrite (@isspace_run_no_text _ Hall).
Qed.

(** [normalize_space] keeps the characters that are no blanks. *)
Lemma has_text_normalize_space (text : pystr) :
  has_text (normalize_space text) = has_text text.
Proof. unfold normalize_space, re_sub. now rewrite has_text_strip, has_text_collapse. Qed.

Lemma normalize_space_blank (text : pystr) :
  normalize_space text = [] <-> has_text text = false.
Proof.
  rewrite <- has_text_normalize_space. unfold normalize_space.
  rewrite has_text_strip. apply strip_empty_iff.
Qed.

(** [normalize_space] returns the empty string exactly on the texts made
    of blanks, keeps a character that is no blank in every other text, and
    its result has no blank at either end. *)
Theorem normalize_space_empty_iff (text : pystr) :
  (normalize_space text = [] <-> has_text text = false)
  /\ has_text (normalize_space text) = has_text text
  /\ strip (normalize_space text) = normalize_space text.
Proof.
  split; [apply normalize_space_blank|].
  split; [apply has_text_normalize_space | apply strip_idempotent].
Qed.

End Blanks.

(** ** The reasons *)

Section Reasons.
Context {R : PyRuntime}.

Ltac literal_mismatch :=
  match goal with
  | H : _ = _ |- _ => solve [vm_compute in H; discriminate H]
  end.

(** [unclear_reasons] gives the reason that the description is empty
    exactly for the bodies made of blanks. *)
Theorem unclear_reasons_description_empty_iff (issue : IssueData) :
  In (lit "Description is empty.") (unclear_reasons issue)
  <-> has_text (body issue) = false.
Proof.
  pose proof (normalize_space_blank (body issue)) as Hblank.
  unfold unclear_reasons. cbv zeta.
  destruct (normalize_space (body issue)) as [|c rest] eqn:Hb; cbn [nonempty negb].
  - split; intros _; [now apply Hblank | apply in_or_app; right; now left].
  - assert (Htext : has_text (body issue) <> false).
    { intros H. apply Hblank in H. discriminate H. }
    split; [|intros H; contradiction].
    intros H. exfalso. apply (proj1 (dedupe_In _ _)) in H.
    repeat rewrite in_app_iff in H.
    repeat match type of H with
    | context [if ?b then _ else _] => destruct b
    end;
    cbn [In] in H; intuition; literal_mismatch.
Qed.

(** [unclear_reasons] and [core_standard_violations] never give a reason
    twice. *)
Lemma reasons_NoDup (issue : IssueData) :
  NoDup (unclear_reasons issue) /\ NoDup (core_standard_violations issue).
Proof.
  split; [|apply dedupe_NoDup].
  unfold unclear_reasons. cbv zeta.
  destruct (negb (nonempty (normalize_space (body issue))));
    [|apply dedupe_NoDup].
  destruct (title_too_generic 8 (normalize_space (title issue))); simpl.
  - constructor; [|constructor; [intros [] | constructor]].
    intros [H | []]. literal_mismatch.
  - constructor; [intros [] | constructor].
Qed.

(** The reasons of a decision are never empty and never hold a reason
    twice. *)
Theorem decide_reasons_distinct (issue : IssueData) (decision : Decision) :
  decide issue = inl decision ->
  reasons decision <> [] /\ NoDup (reasons decision).
Proof.
  destruct (reasons_NoDup issue) as [Hu Hv].
  assert (Hone : forall x : pystr, [x] <> [] /\ NoDup [x]).
  { intros x. split; [discriminate | constructor; [intros [] | constructor]]. }
  intros H. decide_branches H; try apply Hone;
  (split; [now apply nonempty_true | assumption]).
Qed.

End Reasons.

(** ** Sections and sanitization *)

Section Sections.
Context {R : PyRuntime}.

Lemma sections_loop_no_heading (lines current_lines : list pystr) :
  (forall line, In line lines -> re_match HEADING_TEXT_RE (strip line) = None) ->
  sections_loop [] current_lines lines = [].
Proof.
  revert current_lines. induction lines as [|line lines IH]; intros cur Hno;
    cbn [sections_loop nonempty]; cbv zeta; [reflexivity|].
  rewrite (Hno line (or_introl eq_refl)). apply IH.
  intros l Hl. apply Hno. now right.
Qed.

(** A body without a heading line has no template sections. *)
Theorem extract_template_sections_no_heading (body : pystr) :
  (forall line, In line (splitlines body) ->
                re_match HEADING_TEXT_RE (strip line) = None) ->
  extract_template_sections body = [].
Proof. apply sections_loop_no_heading. Qed.

Lemma sections_loop_tidy (lines current_lines : list pystr) (current_heading : pystr) :
  strip current_heading = current_heading ->
  Forall tidy_section (sections_loop current_heading current_lines lines).
Proof.
  revert current_heading current_lines.
  induction lines as [|line lines IH]; intros h cur Hh;
    cbn [sections_loop]; cbv zeta;
    (assert (Hflush : Forall tidy_section
               (if nonempty h then [(h, strip (join nl cur))] else []))
      by (destruct h as [|c h']; cbn [nonempty]; constructor; [|constructor];
          repeat split; [discriminate | assumption | apply strip_idempotent])).
  - exact Hflush.
  - destruct (re_match HEADING_TEXT_RE (strip line)) as [m|].
    + apply Forall_app. split; [exact Hflush|]. apply IH, strip_idempotent.
    + now apply IH.
Qed.

(** Every template section [extract_template_sections] returns has a
    heading that is not empty, and neither its heading nor its content
    starts or ends with a blank. *)
Theorem extract_template_sections_tidy (body : pystr) :
  Forall tidy_section (extract_template_sections body).
Proof. apply sections_loop_tidy. reflexivity. Qed.

Lemma sanitize_lines_outside_self_checks (lines : list pystr) :
  (forall line, In line lines ->
                found (re_match SELF_CHECKS_HEADER_RE (strip line)) = false) ->
  sanitize_lines false lines = lines.
Proof.
  induction lines as [|line lines IH]; intros Hno; cbn [sanitize_lines]; [reflexivity|].
  assert (IH' : sanitize_lines false lines = lines).
  { apply IH. intros l Hl. apply Hno. now right. }
  rewrite (Hno line (or_introl eq_refl)). cbn [andb].
  destruct (found (re_match HEADING_RE (strip line))); now rewrite IH'.
Qed.

(** Sanitization only acts inside a Self Checks section: a body without a
    Self Checks heading comes back with all its lines, joined by newlines,
    whatever snippets they hold. *)
Theorem sanitize_body_without_self_checks (body : pystr) :
  (forall line, In line (splitlines body) ->
                found (re_match SELF_CHECKS_HEADER_RE (strip line)) = false) ->
  sanitize_body_for_cjk body = join nl (splitlines body).
Proof.
  intros H. unfold sanitize_body_for_cjk.
  now rewrite (@sanitize_lines_outside_self_checks _ H).
Qed.

Lemma content_parts_have_text (sections : list (pystr * pystr)) :
  Forall (fun part => has_text part = true) (content_parts sections).
Proof.
  induction sections as [|[heading content] sections IH]; cbn [content_parts];
    [constructor|].
  destruct (section_part (heading, content)) as [part|] eqn:E; [|assumption].
  constructor; [|assumption].
  unfold section_part, non_response in E. cbv zeta in E.
  destruct (checklist_heading heading); [discriminate|].
  destruct (normalize_space content) as [|c rest] eqn:Hn; [discriminate|].
  cbn [nonempty negb orb] in E.
  destruct (str_in _ NON_RESPONSE_VALUES); [discriminate|].
  destruct (checkbox_only content); [discriminate|].
  injection E as <-. rewrite <- Hn, has_text_normalize_space.
  destruct (has_text content) eqn:Ht; [reflexivity|].
  apply normalize_space_blank in Ht. congruence.
Qed.

(** The effective content of a body that holds a character other than a
    blank holds one too: it is never the empty string. *)
Theorem effective_content_has_text (body : pystr) :
  has_text body = true -> has_text (effective_content body) = true.
Proof.
  intros Hbody. unfold effective_content. cbv zeta.
  destruct (negb (nonempty (extract_template_sections body)));
    [now rewrite has_text_normalize_space|].
  pose proof (content_parts_have_text (extract_template_sections body)) as Hparts.
  destruct (content_parts (extract_template_sections body)) as [|part parts];
    cbn [nonempty]; [now rewrite has_text_normalize_space|].
  inversion Hparts as [|? ? Hpart _]; subst.
  destruct parts as [|part' parts']; [exact Hpart|].
  change (join (lit " ") (part :: part' :: parts'))
    with (part ++ lit " " ++ join (lit " ") (part' :: parts')).
  now rewrite has_text_app, Hpart.
Qed.

End Sections.

(** ** What a comment holds *)

Lemma startswith_iff (s p : pystr) :
  startswith s p = true <-> exists post, s = p ++ post.
Proof.
  revert s; induction p as [|x p IH]; intros s.
  - split; [intros _; now exists s | now destruct s].
  - destruct s as [|y s]; simpl.
    + split; [discriminate | intros (post & E); discriminate E].
    + rewrite andb_true_iff, N.eqb_eq, IH. split.
      * intros (-> & post & ->). now exists post.
      * intros (post & E). injection E as -> ->. split; [reflexivity | now exists post].
Qed.

(** [p in s] says that [s] is [p] between two texts. *)
Lemma contains_iff (s p : pystr) :
  contains s p = true <-> exists pre post, s = pre ++ p ++ post.
Proof.
  induction s as [|c s IH].
  - cbn [contains]. rewrite orb_false_r, startswith_iff. split.
    + intros (post & E). now exists [], post.
    + intros (pre & post & E). destruct pre as [|d pre]; [|discriminate E].
      now exists post.
  - cbn [contains]. rewrite orb_true_iff, startswith_iff, IH. split.
    + intros [(post & E) | (pre & post & E)].
      * now exists [], post.
      * exists (c :: pre), post. simpl. now f_equal.
    + intros (pre & post & E). destruct pre as [|d pre].
      * left. now exists post.
      * right. injection E as -> E. now exists pre, post.
Qed.

Lemma contains_trans (a b c : pystr) :
  contains a b = true -> contains b c = true -> contains a c = true.
Proof.
  rewrite !contains_iff. intros (p1 & q1 & ->) (p2 & q2 & ->).
  exists (p1 ++ p2), (q2 ++ q1). now rewrite !app_assoc.
Qed.

(** A text made by [join] holds each of the joined items. *)
Lemma contains_join (sep x : pystr) (items : list pystr) :
  In x items -> contains (join sep items) x = true.
Proof.
  intros Hin. apply contains_iff.
  induction items as [|y items IH]; [destruct Hin|].
  destruct items as [|z items'].
  - destruct Hin as [-> | []]. exists [], []. simpl. now rewrite app_nil_r.
  - change (join sep (y :: z :: items')) with (y ++ sep ++ join sep (z :: items')).
    destruct Hin as [-> | Hin].
    + now exists [], (sep ++ join sep (z :: items')).
    + destruct (IH Hin) as (pre & post & E). rewrite E.
      exists (y ++ sep ++ pre), post. now rewrite !app_assoc.
Qed.

(** [render_comment] returns a comment for the five categories that close
    an issue and the empty string for every other category. *)
Theorem render_comment_nonempty_iff (issue : IssueData) (category : pystr)
    (reasons : list pystr) :
  render_comment issue category reasons <> [] <-> In category closing_categories.
Proof.
  split.
  - intros Hne. unfold render_comment in Hne. cbv zeta in Hne.
    unfold closing_categories. simpl.
    repeat match type of Hne with
    | context [str_eqb category ?l] =>
        let E := fresh "E" in
        destruct (str_eqb category l) eqn:E;
          [apply str_eqb_eq in E; subst; tauto|]
    end.
    now contradiction Hne.
  - intros Hin. now apply has_text_nonempty, render_comment_has_text.
Qed.

(** In the comments of the categories [unclear], [outdated-version] and
    [core-standards], every reason given is listed as a bullet. *)
Theorem render_comment_lists_reasons (issue : IssueData) (category reason : pystr)
    (reasons : list pystr) :
  In category listing_categories ->
  In reason reasons ->
  contains (render_comment issue category reasons) (lit "- " ++ reason) = true.
Proof.
  intros Hcat Hin.
  set (reason_lines := join nl (map (fun item => lit "- " ++ item) reasons)).
  assert (Hlisted : contains reason_lines (lit "- " ++ reason) = true).
  { apply contains_join. now apply (in_map (fun item => lit "- " ++ item)). }
  assert (Hne : nonempty reason_lines = true).
  { apply contains_iff in Hlisted as (pre & post & E). rewrite E.
    now destruct pre. }
  unfold listing_categories in Hcat.
  repeat (destruct Hcat as [<- | Hcat]); try contradiction;
    unfold render_comment; cbv zeta;
    repeat match goal with
    | |- context [str_eqb (lit ?a) (lit ?b)] =>
        let v := eval vm_compute in (str_eqb (lit a) (lit b)) in
        change (str_eqb (lit a) (lit b)) with v; cbv iota
    end;
    fold reason_lines; rewrite Hne;
    (apply contains_trans with (b := reason_lines); [|exact Hlisted]);
    apply contains_join; simpl; tauto.
Qed.

(** ** Where the characters of a sanitized body come from *)

Lemma splitlines_from_chars (n : nat) (s cur : pystr) (l : pystr) (c : cp) :
  length s <= n -> In l (splitlines_from cur s) -> In c l -> In c cur \/ In c s.
Proof.
  revert s cur. induction n as [|n IH]; intros s cur Hlen Hl Hc.
  - destruct s; [|simpl in Hlen; lia]. simpl in Hl.
    destruct cur as [|d cur]; [destruct Hl|].
    destruct Hl as [<- | []]. left. now apply in_rev.
  - destruct s as [|c0 s'].
    + simpl in Hl. destruct cur as [|d cur]; [destruct Hl|].
      destruct Hl as [<- | []]. left. now apply in_rev.
    + cbn [splitlines_from] in Hl. simpl in Hlen.
      assert (Hcur : In c (rev cur) -> In c cur \/ In c (c0 :: s')).
      { intros H. left. now apply in_rev. }
      assert (Hrest : forall t, In l (splitlines_from [] t) -> length t <= n ->
                (forall x, In x t -> In x (c0 :: s')) -> In c cur \/ In c (c0 :: s')).
      { intros t Ht Hn Hsub. right.
        destruct (IH t [] Hn Ht Hc) as [[] | H]. now apply Hsub. }
      destruct (N.eqb c0 13).
      * destruct s' as [|c2 s''].
        { destruct Hl as [<- | []]. now apply Hcur. }
        destruct (N.eqb c2 10); destruct Hl as [<- | Hl]; try now apply Hcur.
        { apply (Hrest s'' Hl); [simpl in Hlen; lia|]. intros x Hx. now do 2 right. }
        { apply (Hrest (c2 :: s'') Hl); [lia|]. intros x Hx. now right. }
      * destruct (is_linebreak c0).
        { destruct Hl as [<- | Hl]; [now apply Hcur|].
          apply (Hrest s' Hl); [lia|]. intros x Hx. now right. }
        { assert (Hs' : length s' <= n) by lia.
          destruct (IH s' (c0 :: cur) Hs' Hl Hc) as [[<- | H] | H].
          - right. now left.
          - now left.
          - right. now right. }
Qed.

(** The characters of the lines of a text are characters of the text. *)
Lemma splitlines_chars (s l : pystr) (c : cp) :
  In l (splitlines s) -> In c l -> In c s.
Proof.
  intros Hl Hc.
  destruct (@splitlines_from_chars (length s) s [] l c (le_n _) Hl Hc) as [[] | H].
  exact H.
Qed.

Lemma skipn_chars (n : nat) (s : pystr) (c : cp) : In c (skipn n s) -> In c s.
Proof.
  intros H. rewrite <- (firstn_skipn n s). apply in_or_app. now right.
Qed.

Lemma remove_sub_chars (fuel : nat) (s old : pystr) (c : cp) :
  In c (remove_sub fuel s old) -> In c s.
Proof.
  revert s. induction fuel as [|fuel IH]; intros s; cbn [remove_sub]; [trivial|].
  destruct s as [|d s']; [trivial|].
  destruct (startswith (d :: s') old).
  - intros H. apply IH in H. now apply skipn_chars in H.
  - intros [<- | H]; [now left | right; now apply IH].
Qed.

Lemma cleaned_chars (snippets : list pystr) (line : pystr) (c : cp) :
  In c (fold_left replace_empty snippets line) -> In c line.
Proof.
  revert line. induction snippets as [|snippet snippets IH]; intros line; [trivial|].
  cbn [fold_left]. intros H. apply IH in H. unfold replace_empty in H.
  now apply remove_sub_chars in H.
Qed.

Lemma join_chars (sep : pystr) (items : list pystr) (c : cp) :
  In c (join sep items) -> In c sep \/ exists l, In l items /\ In c l.
Proof.
  induction items as [|x items IH]; [intros []|].
  destruct items as [|y items'].
  - intros H. right. exists x. split; [now left | exact H].
  - change (join sep (x :: y :: items')) with (x ++ sep ++ join sep (y :: items')).
    rewrite !in_app_iff. intros [H | [H | H]].
    + right. exists x. split; [now left | exact H].
    + now left.
    + destruct (IH H) as [Hs | (l & Hl & Hc)]; [now left|].
      right. exists l. split; [now right | exact Hc].
Qed.

Section Sources.
Context {R : PyRuntime}.

Lemma sanitize_lines_chars (lines : list pystr) (in_self_checks : bool)
    (l : pystr) (c : cp) :
  In l (sanitize_lines in_self_checks lines) -> In c l ->
  exists line, In line lines /\ In c line.
Proof.
  revert in_self_checks. induction lines as [|line lines IH]; intros flag;
    cbn [sanitize_lines]; [intros []|].
  assert (Hhere : In c line -> exists line0, In line0 (line :: lines) /\ In c line0).
  { intros H. exists line. split; [now left | exact H]. }
  assert (Hlater : forall f, In l (sanitize_lines f lines) -> In c l ->
            exists line0, In line0 (line :: lines) /\ In c line0).
  { intros f Hl Hc. destruct (IH f Hl Hc) as (line0 & H0 & Hc0).
    exists line0. split; [now right | exact Hc0]. }
  destruct (found (re_match HEADING_RE (strip line))).
  - intros [<- | Hl] Hc; [now apply Hhere | now apply (Hlater _ Hl)].
  - destruct (flag && _).
    + destruct (str_in _ CHECKBOX_ONLY).
      * intros Hl Hc. now apply (Hlater _ Hl).
      * intros [<- | Hl] Hc; [|now apply (Hlater _ Hl)].
        apply Hhere. now apply cleaned_chars in Hc.
    + intros [<- | Hl] Hc; [now apply Hhere | now apply (Hlater _ Hl)].
Qed.

(** Sanitization adds no character: every character of the sanitized body
    is a newline or a character of the body. *)
Lemma sanitize_body_chars (body : pystr) (c : cp) :
  In c (sanitize_body_for_cjk body) -> c = NL \/ In c body.
Proof.
  unfold sanitize_body_for_cjk. intros H.
  apply join_chars in H as [[<- | []] | (l & Hl & Hc)]; [now left|].
  right. destruct (@sanitize_lines_chars _ _ _ _ Hl Hc) as (line & Hline & Hc').
  now apply (@splitlines_chars body line).
Qed.

End Sources.

(** ** Texts without CJK characters, titles with a question mark *)

Unset Implicit Arguments.

Lemma count_none (p : cp -> bool) (text : pystr) :
  (forall c, In c text -> p c = false) -> count p text = 0.
Proof.
  unfold count. induction text as [|c text IH]; intros H; [reflexivity|].
  simpl. rewrite (H c (or_introl eq_refl)). apply IH. intros d Hd. apply H. now right.
Qed.

(** The ratio of a text that holds no character of the ranges of [CJK_RE]
    is zero. *)
Lemma cjk_ratio_without_cjk (text : pystr) :
  (forall c, In c text -> CJK_RE c = false) -> Qnum (cjk_ratio text) = 0%Z.
Proof.
  intros H. unfold cjk_ratio. destruct text as [|c0 text0] eqn:E; [reflexivity|].
  rewrite <- E in *. destruct (Nat.eqb _ 0); [reflexivity|].
  rewrite (count_none CJK_RE text H). reflexivity.
Qed.

Lemma in_lstrip (s : pystr) (c : cp) :
  isspace c = false -> In c s -> In c (lstrip s).
Proof.
  intros Hc. induction s as [|d s IH]; [trivial|]. simpl.
  destruct (isspace d) eqn:Hd; [|trivial].
  intros [-> | H]; [congruence | now apply IH].
Qed.

(** [strip] keeps every character that is no blank. *)
Lemma in_strip (s : pystr) (c : cp) :
  isspace c = false -> In c s -> In c (strip s).
Proof.
  intros Hc H. unfold strip, rstrip.
  apply -> in_rev. apply (in_lstrip _ _ Hc). apply -> in_rev.
  now apply (in_lstrip _ _ Hc).
Qed.

Lemma contains_char (s : pystr) (c : cp) : In c s -> contains s [c] = true.
Proof.
  intros H. apply contains_iff. apply in_split in H as (pre & post & ->).
  now exists pre, post.
Qed.

Section Verdicts.
Context {R : PyRuntime}.

(** An issue whose title and body hold no character of the ranges of
    [CJK_RE] has the ratio zero and is never given the category
    [language]. *)
Theorem decide_without_cjk_never_language (issue : IssueData) :
  (forall c, In c (title issue) -> CJK_RE c = false) ->
  (forall c, In c (body issue) -> CJK_RE c = false) ->
  Qnum (max_cjk_ratio issue) = 0%Z
  /\ forall decision, decide issue = inl decision -> category decision <> lit "language".
Proof.
  intros Htitle Hbody.
  assert (Hsan : forall c, In c (sanitize_body_for_cjk (body issue)) -> CJK_RE c = false).
  { intros c Hc. apply sanitize_body_chars in Hc as [-> | Hc];
      [reflexivity | now apply Hbody]. }
  assert (Hzero : Qnum (max_cjk_ratio issue) = 0%Z).
  { unfold max_cjk_ratio, ratio_max.
    destruct (Qle_bool _ _); apply cjk_ratio_without_cjk; [|exact Hsan].
    unfold language_check_text. intros c Hc.
    apply in_app_or in Hc as [Hc | Hc]; [now apply Htitle|].
    apply in_app_or in Hc as [[<- | []] | Hc]; [reflexivity | now apply Hsan]. }
  split; [exact Hzero|].
  intros decision Hd Hlang. apply (category_language_ratio issue Hd) in Hlang.
  unfold Qle, CJK_RATIO_THRESHOLD in Hlang. rewrite Hzero in Hlang.
  simpl in Hlang. lia.
Qed.

Lemma title_mark_is_question (issue : IssueData) :
  In 0x3F%N (title issue) \/ In 0xFF1F%N (title issue) ->
  looks_like_question issue = true.
Proof.
  intros H. unfold looks_like_question. cbv zeta.
  destruct (str_in (lit "question") _ || str_in (lit "support") _); [reflexivity|].
  assert (Hmark : contains (strip (title issue)) (lit "?")
                  || contains (strip (title issue)) [0xff1f%N] = true).
  { apply orb_true_iff. destruct H as [H | H]; [left | right];
      apply contains_char, in_strip; trivial. }
  now rewrite Hmark.
Qed.

(** A question mark in the title, ASCII or fullwidth, makes the issue look
    like a question, whatever its labels and its body. *)
Theorem question_mark_in_title (issue : IssueData) :
  In 0x3F%N (title issue) \/ In 0xFF1F%N (title issue) ->
  looks_like_question issue = true.
Proof. apply title_mark_is_question. Qed.

(** An open issue of a plugin repository below the CJK threshold with a
    question mark in its title is closed as a question. *)
Theorem decide_plugin_question_mark (issue : IssueData) :
  str_in (repo issue) PLUGIN_REPOS = true ->
  is_open issue = true ->
  (max_cjk_ratio issue < CJK_RATIO_THRESHOLD)%Q ->
  In 0x3F%N (title issue) \/ In 0xFF1F%N (title issue) ->
  exists decision,
    decide issue = inl decision
    /\ action decision = lit "close" /\ category decision = lit "question".
Proof.
  intros Hplug Hopen Hratio Hmark. unfold decide.
  rewrite (plugin_repo_supported _ Hplug). cbn [negb].
  unfold is_open in Hopen. rewrite Hopen. cbn [negb]. rewrite Hplug.
  unfold max_cjk_ratio in Hratio. cbv zeta.
  destruct (Qle_bool CJK_RATIO_THRESHOLD _) eqn:E.
  - apply Qle_bool_iff in E. exfalso. now apply (Qlt_not_le _ _ Hratio).
  - rewrite (title_mark_is_question issue Hmark).
    eexists. split; [reflexivity|]. split; reflexivity.
Qed.

End Verdicts.

Section Precedence.
Context {R : PyRuntime}.

(** For the flagship repository the version comes before the standards: an
    open issue without linked pull requests, by an author who is not
    trusted, below the CJK threshold and not a question, in whose body
    [extract_dify_version] reads a version below the minimum, is closed as
    [outdated-version] with the version in the reason, whatever else the
    standards would object to. *)
Theorem decide_outdated_version_first (issue : IssueData) (v : version) :
  repo issue = CORE_REPO ->
  is_open issue = true ->
  linked_prs issue = [] ->
  str_in (upper (author_association issue)) SKIP_ASSOCIATIONS = false ->
  (max_cjk_ratio issue < CJK_RATIO_THRESHOLD)%Q ->
  looks_like_question issue = false ->
  extract_dify_version (body issue) = inl (Some v) ->
  version_lt v MIN_DIFY_VERSION = true ->
  exists decision,
    decide issue = inl decision
    /\ action decision = lit "close"
    /\ category decision = lit "outdated-version"
    /\ reasons decision =
       [lit "Reported Dify version is v" ++ version_str v
        ++ lit ", which is below v" ++ MIN_DIFY_VERSION_STR ++ lit "."].
Proof.
  intros Hrepo Hopen Hprs Htrust Hratio Hq Hv Hlt. unfold decide.
  unfold is_open in Hopen. unfold max_cjk_ratio in Hratio.
  rewrite Hrepo, Hopen, Hprs, Htrust, Hq, Hv. unfold bind. rewrite Hlt.
  change (negb (str_in CORE_REPO SUPPORTED_REPOS)) with false.
  change (str_in CORE_REPO PLUGIN_REPOS) with false.
  change (str_in CORE_REPO CORE_LIKE_REPOS) with true.
  rewrite str_eqb_refl. cbn [negb andb nonempty]. cbv zeta.
  destruct (Qle_bool CJK_RATIO_THRESHOLD _) eqn:E.
  - apply Qle_bool_iff in E. exfalso. now apply (Qlt_not_le _ _ Hratio).
  - eexists. split; [reflexivity|]. repeat split.
Qed.

End Precedence.

(** ** The further properties on the example issues *)

Lemma text_no_cjk (s : pystr) :
  forallb (fun c => negb (CJK_RE c)) s = true ->
  forall c, In c s -> CJK_RE c = false.
Proof.
  intros H c Hc. apply (proj1 (forallb_forall _ _) H) in Hc.
  now apply negb_true_iff.
Qed.

Lemma in_by_eqb (c : cp) (s : pystr) : existsb (N.eqb c) s = true -> In c s.
Proof.
  intros H. apply existsb_exists in H as (d & Hd & E).
  apply N.eqb_eq in E. now subst.
Qed.

Lemma cjk_ratio_bounds_plain_body :
  (0 <= cjk_ratio plain_body <= 1)%Q.
Proof.
  apply cjk_ratio_bounds. intros H.
  assert (E : existsb (N.eqb 0x3000%N) plain_body = true).
  { apply existsb_exists. exists 0x3000%N. split; [exact H | reflexivity]. }
  vm_compute in E. discriminate E.
Defined.

Lemma decide_category_exclusive_generic_title_issue :
  exists decision,
    decide (R := on_ascii) generic_title_issue = inl decision
    /\ category decision = lit "unclear"
    /\ (str_in (repo generic_title_issue) PLUGIN_REPOS = true ->
        category decision <> lit "core-standards"
        /\ category decision <> lit "outdated-version")
    /\ (str_in (repo generic_title_issue) CORE_LIKE_REPOS = true ->
        category decision <> lit "unclear").
Proof.
  eexists. split; [vm_compute; reflexivity|]. split; [reflexivity|].
  apply (decide_category_exclusive (R := on_ascii) generic_title_issue).
  vm_compute; reflexivity.
Defined.

Lemma decide_close_invariant_generic_title_issue :
  exists decision,
    decide (R := on_ascii) generic_title_issue = inl decision
    /\ (action decision = lit "close" -> reasons decision <> [])
    /\ (comment decision <> [] <-> action decision = lit "close").
Proof.
  eexists. split; [vm_compute; reflexivity|].
  apply (decide_close_invariant (R := on_ascii) generic_title_issue).
  vm_compute; reflexivity.
Defined.

Lemma decide_skip_sound_closed_foreign_issue :
  exists decision,
    decide (R := on_ascii) closed_foreign_issue = inl decision
    /\ (category decision = lit "unsupported-repo"
        <-> str_in (repo closed_foreign_issue) SUPPORTED_REPOS = false)
    /\ (category decision = lit "not-open"
        <-> str_in (repo closed_foreign_issue) SUPPORTED_REPOS = true
            /\ is_open (R := on_ascii) closed_foreign_issue = false)
    /\ (category decision = lit "linked-pr"
        <-> str_in (repo closed_foreign_issue) CORE_LIKE_REPOS = true
            /\ is_open (R := on_ascii) closed_foreign_issue = true
            /\ linked_prs closed_foreign_issue <> [])
    /\ (category decision = lit "trusted-author"
        <-> str_in (repo closed_foreign_issue) CORE_LIKE_REPOS = true
            /\ is_open (R := on_ascii) closed_foreign_issue = true
            /\ linked_prs closed_foreign_issue = []
            /\ str_in (upper (PyRuntime := on_ascii)
                         (author_association closed_foreign_issue))
                      SKIP_ASSOCIATIONS = true).
Proof.
  eexists. split; [vm_compute; reflexivity|].
  apply (decide_skip_sound (R := on_ascii) closed_foreign_issue).
  vm_compute; reflexivity.
Defined.

Lemma decide_action_matches_category_generic_title_issue :
  exists decision,
    decide (R := on_ascii) generic_title_issue = inl decision
    /\ ((action decision = lit "skip" /\ In (category decision) skip_categories)
        \/ (action decision = lit "close" /\ In (category decision) closing_categories)
        \/ (action decision = lit "none" /\ category decision = lit "pass")).
Proof.
  eexists. split; [vm_compute; reflexivity|].
  apply (decide_action_matches_category (R := on_ascii) generic_title_issue).
  vm_compute; reflexivity.
Defined.

Lemma decide_comment_is_rendered_generic_title_issue :
  exists decision,
    decide (R := on_ascii) generic_title_issue = inl decision
    /\ comment decision =
       if str_eqb (action decision) (lit "close")
       then render_comment generic_title_issue (category decision) (reasons decision)
       else [].
Proof.
  eexists. split; [vm_compute; reflexivity|].
  apply (decide_comment_is_rendered (R := on_ascii) generic_title_issue).
  vm_compute; reflexivity.
Defined.

Lemma decide_language_question_sound_question_mark_issue :
  exists decision,
    decide (R := on_ascii) question_mark_issue = inl decision
    /\ category decision = lit "question"
    /\ (category decision = lit "language" ->
        (CJK_RATIO_THRESHOLD <= max_cjk_ratio (R := on_ascii) question_mark_issue)%Q)
    /\ (category decision = lit "question" ->
        looks_like_question (R := on_ascii) question_mark_issue = true
        /\ (max_cjk_ratio (R := on_ascii) question_mark_issue < CJK_RATIO_THRESHOLD)%Q).
Proof.
  eexists. split; [vm_compute; reflexivity|]. split; [reflexivity|].
  apply (decide_language_question_sound (R := on_ascii) question_mark_issue).
  vm_compute; reflexivity.
Defined.

Lemma decide_reasons_distinct_generic_title_issue :
  exists decision,
    decide (R := on_ascii) generic_title_issue = inl decision
    /\ reasons decision <> [] /\ NoDup (reasons decision).
Proof.
  eexists. split; [vm_compute; reflexivity|].
  apply (decide_reasons_distinct (R := on_ascii) generic_title_issue).
  vm_compute; reflexivity.
Defined.

Lemma decide_trusted_author_member_issue :
  state member_issue = lit "open"
  /\ author_association member_issue = lit "member"
  /\ nonempty (core_standard_violations (R := on_ascii) member_issue) = true
  /\ exists decision,
       decide (R := on_ascii) member_issue = inl decision
       /\ action decision = lit "skip"
       /\ category decision = lit "trusted-author"
       /\ comment decision = [].
Proof.
  split; [reflexivity|]. split; [reflexivity|]. split; [vm_compute; reflexivity|].
  apply (decide_trusted_author (R := on_ascii) member_issue);
    vm_compute; reflexivity.
Defined.

Lemma decide_outdated_version_sound_old_version_issue :
  exists decision,
    decide (R := on_ascii) old_version_issue = inl decision
    /\ category decision = lit "outdated-version"
    /\ repo old_version_issue = CORE_REPO
    /\ exists v, extract_dify_version (R := on_ascii) (body old_version_issue)
                 = inl (Some v)
                 /\ version_lt v MIN_DIFY_VERSION = true
                 /\ reasons decision =
                    [lit "Reported Dify version is v" ++ version_str v
                     ++ lit ", which is below v" ++ MIN_DIFY_VERSION_STR ++ lit "."].
Proof.
  eexists. split; [vm_compute; reflexivity|]. split; [reflexivity|].
  apply (decide_outdated_version_sound (R := on_ascii) old_version_issue);
    vm_compute; reflexivity.
Defined.

Lemma decide_outdated_version_first_old_version_issue :
  nonempty (core_standard_violations (R := on_ascii) old_version_issue) = true
  /\ exists decision,
       decide (R := on_ascii) old_version_issue = inl decision
       /\ action decision = lit "close"
       /\ category decision = lit "outdated-version"
       /\ reasons decision =
          [lit "Reported Dify version is v" ++ version_str (1, 5, 0)%N
           ++ lit ", which is below v" ++ MIN_DIFY_VERSION_STR ++ lit "."].
Proof.
  split; [vm_compute; reflexivity|].
  apply (decide_outdated_version_first (R := on_ascii) old_version_issue (1, 5, 0)%N);
    try (vm_compute; reflexivity).
Defined.

Lemma decide_pass_sound_passing_issue :
  exists decision,
    decide (R := on_ascii) passing_issue = inl decision
    /\ category decision = lit "pass"
    /\ str_in (repo passing_issue) SUPPORTED_REPOS = true
    /\ is_open (R := on_ascii) passing_issue = true
    /\ (max_cjk_ratio (R := on_ascii) passing_issue < CJK_RATIO_THRESHOLD)%Q
    /\ looks_like_question (R := on_ascii) passing_issue = false
    /\ (if str_in (repo passing_issue) PLUGIN_REPOS
        then unclear_reasons (R := on_ascii) passing_issue = []
        else core_standard_violations (R := on_ascii) passing_issue = []).
Proof.
  eexists. split; [vm_compute; reflexivity|]. split; [reflexivity|].
  eapply (decide_pass_sound (R := on_ascii) passing_issue); vm_compute; reflexivity.
Defined.

Lemma extract_template_sections_no_heading_plain_body :
  extract_template_sections (R := on_ascii) plain_body = [].
Proof.
  apply (extract_template_sections_no_heading (R := on_ascii) plain_body).
  intros line Hin. vm_compute in Hin. destruct Hin as [<- | []].
  vm_compute; reflexivity.
Defined.

Lemma sanitize_body_without_self_checks_fenced_body :
  sanitize_body_for_cjk (R := on_ascii) fenced_body = join nl (splitlines fenced_body).
Proof.
  apply (sanitize_body_without_self_checks (R := on_ascii) fenced_body).
  intros line Hin. vm_compute in Hin.
  repeat (destruct Hin as [<- | Hin]; [vm_compute; reflexivity|]).
  destruct Hin.
Defined.

Lemma effective_content_has_text_skipped_sections_body :
  has_text (effective_content (R := on_ascii) skipped_sections_body) = true.
Proof.
  apply (effective_content_has_text (R := on_ascii) skipped_sections_body).
  vm_compute; reflexivity.
Defined.

Lemma render_comment_lists_reasons_two_reasons :
  contains
    (render_comment generic_title_issue (lit "unclear")
       [lit "Title is too short or generic."; lit "Description is empty."])
    (lit "- " ++ lit "Description is empty.") = true.
Proof.
  apply render_comment_lists_reasons.
  - left. reflexivity.
  - right. left. reflexivity.
Defined.

Lemma decide_without_cjk_never_language_passing_issue :
  Qnum (max_cjk_ratio (R := on_ascii) passing_issue) = 0%Z
  /\ forall decision,
       decide (R := on_ascii) passing_issue = inl decision ->
       category decision <> lit "language".
Proof.
  apply (decide_without_cjk_never_language (R := on_ascii) passing_issue);
    apply text_no_cjk; vm_compute; reflexivity.
Defined.

Lemma question_mark_in_title_question_mark_issue :
  looks_like_question (R := on_ascii) question_mark_issue = true.
Proof.
  apply (question_mark_in_title (R := on_ascii) question_mark_issue).
  left. apply in_by_eqb. vm_compute; reflexivity.
Defined.

Lemma decide_plugin_question_mark_issue :
  exists decision,
    decide (R := on_ascii) question_mark_issue = inl decision
    /\ action decision = lit "close" /\ category decision = lit "question".
Proof.
  apply (decide_plugin_question_mark (R := on_ascii) question_mark_issue).
  - vm_compute; reflexivity.
  - vm_compute; reflexivity.
  - vm_compute; reflexivity.
  - left. apply in_by_eqb. vm_compute; reflexivity.
Defined.

(** ** The command line *)

Section CommandLineProperties.
Context {R : PyRuntime}.
Variable isdigit_char : cp -> bool.
Variable repr : pystr -> pystr.
Variable fetch_issue : pystr -> N -> IssueData + pystr.
Variable run_cmd : list pystr -> pystr + pystr.
Variable json_dumps : pystr -> Z -> pystr -> pystr -> list pystr -> pystr.

Let run_main := main isdigit_char repr fetch_issue run_cmd json_dumps.

(** An explicit repository is never overridden: when [parse_issue_target]
    returns for a non-empty [--repo], the repository it returns is that
    one, whether the issue was given as a URL or as a number. *)
Theorem parse_issue_target_respects_override
    (issue_ref override target : pystr) (n : N) :
  override <> [] ->
  parse_issue_target isdigit_char issue_ref (Some override) = inl (target, n) ->
  target = override.
Proof.
  intros Hne. unfold parse_issue_target.
  destruct override as [|c o]; [contradiction|].
  destruct (re_match (ISSUE_URL_RE) (strip issue_ref)) as [m|].
  - cbv zeta. destruct (str_eqb (c :: o) _) eqn:E; cbn [negb]; [|discriminate].
    apply str_eqb_eq in E.
    destruct (int_of_digits _); cbn [with_repo]; [|discriminate].
    intros H. injection H as <- _. now symmetry.
  - destruct (negb (isdigit isdigit_char issue_ref)); [discriminate|].
    destruct (int_of_digits issue_ref); cbn [with_repo]; [|discriminate].
    intros H. now injection H as <- _.
Qed.

Lemma print_summary_prints (issue : IssueData) (decision : Decision) (e : event) :
  In e (print_summary issue decision) -> exists text, e = Print text.
Proof.
  unfold print_summary. rewrite !in_app_iff. intros [H | [H | H]].
  - simpl in H. repeat (destruct H as [<- | H]; [eexists; reflexivity|]). destruct H.
  - destruct (nonempty (reasons decision)); [|destruct H].
    destruct H as [<- | H]; [eexists; reflexivity|].
    apply in_map_iff in H as (reason & <- & _). eexists; reflexivity.
  - destruct (nonempty (comment decision)); [|destruct H].
    repeat (destruct H as [<- | H]; [eexists; reflexivity|]). destruct H.
Qed.

Lemma close_has_comment (issue : IssueData) (decision : Decision) :
  decide issue = inl decision ->
  action decision = lit "close" -> comment decision <> [].
Proof.
  assert (Hc : forall category reasons,
             In category closing_categories ->
             render_comment issue category reasons <> []).
  { intros c rs Hin. now apply has_text_nonempty, render_comment_has_text. }
  intros Hd. decide_branches Hd; intros H;
    solve [ apply Hc; simpl; tauto | vm_compute in H; discriminate H ].
Qed.

(** What [main] prints and runs after the decision: the summary and the
    JSON payload are printed on the standard output. *)
Lemma summary_and_payload_print (args : Args) (issue : IssueData) (decision : Decision)
    (e : event) :
  In e (print_summary issue decision
        ++ (if arg_json args
            then [Print (json_dumps (repo issue) (number issue) (action decision)
                           (category decision) (reasons decision))]
            else [])) ->
  exists text, e = Print text.
Proof.
  intros H. apply in_app_or in H as [H | H].
  - now apply print_summary_prints in H.
  - destruct (arg_json args); [|destruct H].
    destruct H as [<- | []]. eexists; reflexivity.
Qed.

(** Without [--apply], [main] runs no command once the issue is fetched:
    a dry run never closes an issue. *)
Theorem main_dry_run_runs_nothing (args : Args) (cmd : list pystr) :
  arg_apply args = false -> ~ In (Run cmd) (fst (run_main args)).
Proof.
  intros Hdry. unfold run_main, main. rewrite Hdry.
  destruct (parse_issue_target _ _ _) as [[target n]|exc];
    [|intros [H | []]; discriminate H].
  destruct (fetch_issue target n) as [issue|exc];
    [|intros [H | []]; discriminate H].
  destruct (decide issue) as [decision|exc];
    [|intros [H | []]; discriminate H].
  cbv zeta.
  assert (Hsafe : forall last,
            ~ In (Run cmd)
                ((print_summary issue decision
                  ++ (if arg_json args
                      then [Print (json_dumps (repo issue) (number issue)
                                     (action decision) (category decision)
                                     (reasons decision))]
                      else []))
                 ++ [Print last])).
  { intros last H. apply in_app_or in H as [H | [E | []]]; [|discriminate E].
    apply summary_and_payload_print in H as (t & E). discriminate E. }
  destruct (str_eqb _ (lit "close")); cbn [fst]; rewrite app_assoc; apply Hsafe.
Qed.

(** The one command [main] can run once the issue is fetched is the close
    command, with the fixed reason [not planned], for the issue it fetched
    and with the non-empty comment of the decision; it runs it only with
    [--apply] and only for a decision whose action is [close]. *)
Theorem main_runs_only_the_close_command (args : Args) (cmd : list pystr) :
  In (Run cmd) (fst (run_main args)) ->
  arg_apply args = true
  /\ exists target n issue decision,
       parse_issue_target isdigit_char (arg_issue args) (arg_repo args) = inl (target, n)
       /\ fetch_issue target n = inl issue
       /\ decide issue = inl decision
       /\ action decision = lit "close"
       /\ comment decision <> []
       /\ cmd = [lit "gh"; lit "issue"; lit "close"; str_int (number issue); lit "-R";
                 repo issue; lit "--reason"; lit "not planned"; lit "--comment";
                 comment decision].
Proof.
  unfold run_main, main.
  destruct (parse_issue_target _ _ _) as [[target n]|exc] eqn:Hparse;
    [|intros [H | []]; discriminate H].
  destruct (fetch_issue target n) as [issue|exc] eqn:Hfetch;
    [|intros [H | []]; discriminate H].
  destruct (decide issue) as [decision|exc] eqn:Hdecide;
    [|intros [H | []]; discriminate H].
  cbv zeta.
  set (summary := print_summary issue decision).
  set (payload := if arg_json args then _ else _).
  assert (Hprints : forall e, In e (summary ++ payload) -> exists t, e = Print t)
    by (intros e; apply summary_and_payload_print).
  assert (Hquiet : forall last,
            ~ In (Run cmd) (fst (summary ++ payload ++ [Print last], 0%Z))).
  { intros last. cbn [fst]. rewrite app_assoc. intros H.
    apply in_app_or in H as [H | [E | []]]; [|discriminate E].
    apply Hprints in H as (t & E). discriminate E. }
  destruct (str_eqb (action decision) (lit "close")) eqn:Hclose;
    [|intros H; now apply Hquiet in H].
  destruct (arg_apply args); [|intros H; now apply Hquiet in H].
  apply str_eqb_eq in Hclose. unfold close_issue. cbv zeta.
  intros H. split; [reflexivity|]. exists target, n, issue, decision.
  repeat split; try assumption; [now apply (close_has_comment issue)|].
  destruct (run_cmd _); cbn [fst] in H; rewrite !app_assoc in H;
    apply in_app_or in H as [H | [E | []]]; try discriminate E;
    apply in_app_or in H as [H | [E | []]];
    try (apply Hprints in H as (t & E'); discriminate E');
    now injection E as <-.
Qed.


End CommandLineProperties.

(** ** Issue references *)

Section Runs.
Context {R : PyRuntime}.

Lemma rmatch_literal (w tl : pystr) (p : option cp) (cs : list (nat * pystr)) (k : cont) :
  rmatch (seq (map (fun l => Chr (N.eqb l)) w)) {| prev := p; rest := w ++ tl; caps := cs |} k
  = k {| prev := last_seen p w; rest := tl; caps := cs |}.
Proof.
  revert p. induction w as [|c w IH]; intros p; [reflexivity|].
  cbn [map seq fold_right rmatch rest app]. rewrite N.eqb_refl.
  unfold step. cbn [caps]. apply IH.
Qed.

Lemma greedy_run (q : cp -> bool) (lo : nat) (w tl : pystr) (k : cont) (res : mstate)
    (cs : list (nat * pystr)) :
  forallb q w = true ->
  match tl with [] => True | c :: _ => q c = false end ->
  forall (fuel cnt : nat) (p : option cp),
  length w < fuel -> lo <= cnt + length w ->
  k {| prev := last_seen p w; rest := tl; caps := cs |} = Some res ->
  rep_loop (rmatch (Chr q)) true lo None fuel cnt
    {| prev := p; rest := w ++ tl; caps := cs |} k = Some res.
Proof.
  intros Hw Htl. induction w as [|c w IH]; intros fuel cnt p Hfuel Hlo Hk.
  - destruct fuel as [|fuel]; [cbn [length] in Hfuel; lia|].
    cbn [rep_loop]. cbv zeta. cbn [below rmatch rest app].
    cbn [length] in Hlo.
    assert (E : Nat.leb lo cnt = true) by (apply Nat.leb_le; lia).
    destruct tl as [|c tl]; [|rewrite Htl]; unfold or_else; rewrite E; exact Hk.
  - destruct fuel as [|fuel]; [cbn [length] in Hfuel; lia|].
    cbn [forallb] in Hw. apply andb_prop in Hw as [Hc Hw].
    cbn [rep_loop]. cbv zeta. cbn [below rmatch rest app]. rewrite Hc.
    unfold step. cbn [rest caps].
    assert (E : Nat.ltb (length (w ++ tl)) (length (c :: w ++ tl)) = true)
      by (apply Nat.ltb_lt; cbn [length]; lia).
    rewrite E. cbn [length] in Hfuel, Hlo.
    assert (H : rep_loop (rmatch (Chr q)) true lo None fuel (S cnt)
                  {| prev := Some c; rest := w ++ tl; caps := cs |} k = Some res)
      by (apply IH; [exact Hw | lia | lia | exact Hk]).
    cbn [rmatch] in H. unfold step in H. rewrite H. reflexivity.
Qed.

End Runs.

Section IssueReferences.
Context {R : PyRuntime}.
Variable isdigit_char : cp -> bool.
Hypothesis ascii_digits_are_decimal :
  forall d : N, (d < 10)%N -> decimal (0x30 + d)%N = Some d.
Hypothesis ascii_digits_are_digits :
  forall d : N, (d < 10)%N -> isdigit_char (0x30 + d)%N = true.

Lemma taken_run (w tl : pystr) (p p' : option cp) (cs cs' : list (nat * pystr)) :
  taken {| prev := p; rest := w ++ tl; caps := cs |} {| prev := p'; rest := tl; caps := cs' |} = w.
Proof.
  unfold taken. cbn [rest]. rewrite length_app.
  replace (length w + length tl - length tl) with (length w) by lia.
  rewrite firstn_app, firstn_all, Nat.sub_diag. cbn [firstn]. apply app_nil_r.
Qed.

Lemma taken_whole (w : pystr) (p p' : option cp) (cs cs' : list (nat * pystr)) :
  taken {| prev := p; rest := w; caps := cs |} {| prev := p'; rest := []; caps := cs' |} = w.
Proof. rewrite <- (app_nil_r w) at 1. apply taken_run. Qed.

Lemma int_snoc (s : pystr) (c : cp) :
  int (s ++ [c]) = (int s * 10 + match decimal c with Some d => d | None => 0 end)%N.
Proof. unfold int. rewrite fold_left_app. reflexivity. Qed.

Lemma digits_from_acc (fuel : nat) (n : N) (acc : pystr) :
  digits_from fuel n acc = digits_from fuel n [] ++ acc.
Proof.
  revert n acc. induction fuel as [|fuel IH]; intros n acc; [reflexivity|].
  cbn [digits_from]. cbv zeta. destruct (N.eqb (n / 10) 0); [reflexivity|].
  rewrite (IH _ (_ :: acc)), (IH _ [_]), <- app_assoc. reflexivity.
Qed.

(** The characters of [str n] are ASCII digits. *)
Lemma digits_from_all (q : cp -> bool) (fuel : nat) (n : N) :
  (forall d : N, (d < 10)%N -> q (0x30 + d)%N = true) ->
  forallb q (digits_from fuel n []) = true.
Proof.
  intros Hq. revert n. induction fuel as [|fuel IH]; intros n; [reflexivity|].
  cbn [digits_from]. cbv zeta.
  assert (Hd : q (0x30 + n mod 10)%N = true) by (apply Hq, N.mod_lt; discriminate).
  destruct (N.eqb (n / 10) 0); [cbn [forallb]; now rewrite Hd|].
  rewrite digits_from_acc, forallb_app, IH. cbn [forallb]. now rewrite Hd.
Qed.

Lemma str_all (q : cp -> bool) (n : N) :
  (forall d : N, (d < 10)%N -> q (0x30 + d)%N = true) -> forallb q (str n) = true.
Proof. apply digits_from_all. Qed.

Lemma str_nonempty (n : N) : str n <> [].
Proof.
  unfold str. cbn [digits_from]. cbv zeta.
  destruct (N.eqb (n / 10) 0); [discriminate|].
  rewrite digits_from_acc. now destruct (digits_from _ _ []).
Qed.

Lemma int_digits_from (fuel : nat) (n : N) :
  (n / 10 < 2 ^ N.of_nat fuel)%N -> int (digits_from (S fuel) n []) = n.
Proof.
  revert n. induction fuel as [|fuel IH]; intros n Hn.
  - change (2 ^ N.of_nat 0)%N with 1%N in Hn.
    cbn [digits_from]. cbv zeta.
    assert (E : (n / 10 = 0)%N) by (apply N.lt_1_r; exact Hn).
    rewrite E. cbn [N.eqb].
    unfold int. cbn [fold_left].
    rewrite ascii_digits_are_decimal by (apply N.mod_lt; discriminate).
    pose proof (N.div_mod n 10 ltac:(discriminate)) as Hdm. rewrite E in Hdm. lia.
  - remember (S fuel) as f. cbn [digits_from]. cbv zeta.
    destruct (N.eqb (n / 10) 0) eqn:E.
    + apply N.eqb_eq in E. unfold int. cbn [fold_left].
      rewrite ascii_digits_are_decimal by (apply N.mod_lt; discriminate).
      pose proof (N.div_mod n 10). lia.
    + rewrite digits_from_acc, int_snoc. subst f. rewrite IH.
      * rewrite ascii_digits_are_decimal by (apply N.mod_lt; discriminate).
        pose proof (N.div_mod n 10). lia.
      * rewrite Nnat.Nat2N.inj_succ, N.pow_succ_r' in Hn.
        apply N.Div0.div_lt_upper_bound. lia.
Qed.

(** [int] reads back the number [str] wrote. *)
Lemma int_str (n : N) : int (str n) = n.
Proof.
  unfold str. apply int_digits_from. rewrite Nnat.N2Nat.id.
  destruct n as [|p]; [reflexivity|].
  pose proof (N.log2_spec (N.pos p) eq_refl) as [_ H].
  rewrite N.pow_succ_r' in H.
  apply N.Div0.div_lt_upper_bound. lia.
Qed.

Lemma ascii_digit_no_space (d : N) : (d < 10)%N -> negb (isspace (0x30 + d)%N) = true.
Proof.
  intros H.
  assert (Hd : In d [0; 1; 2; 3; 4; 5; 6; 7; 8; 9]%N) by (cbn [In]; lia).
  cbn [In] in Hd. repeat (destruct Hd as [<- | Hd]; [reflexivity|]). destruct Hd.
Qed.

Lemma ascii_digit_no_letter (d : N) : (d < 10)%N -> negb (N.eqb (chr "h") (0x30 + d)%N) = true.
Proof.
  intros H. apply negb_true_iff, N.eqb_neq. change (chr "h") with 104%N. lia.
Qed.

Lemma lstrip_text_start (a b : pystr) :
  a <> [] -> forallb (fun c => negb (isspace c)) a = true -> lstrip (a ++ b) = a ++ b.
Proof.
  destruct a as [|c a]; [contradiction|]. intros _ H. cbn [forallb] in H.
  apply andb_prop in H as [H _]. apply negb_true_iff in H.
  cbn [app lstrip]. now rewrite H.
Qed.

Lemma rstrip_text_end (a b : pystr) :
  b <> [] -> forallb (fun c => negb (isspace c)) b = true -> rstrip (a ++ b) = a ++ b.
Proof.
  intros Hb H. unfold rstrip. rewrite rev_app_distr, lstrip_text_start.
  - now rewrite rev_app_distr, !rev_involutive.
  - intros E. apply Hb. rewrite <- (rev_involutive b), E. reflexivity.
  - apply forallb_forall. intros c Hc. apply in_rev in Hc.
    revert c Hc. now apply forallb_forall.
Qed.

Lemma strip_str (n : N) : strip (str n) = str n.
Proof.
  pose proof (str_all (fun c => negb (isspace c)) n ascii_digit_no_space) as H.
  unfold strip.
  rewrite <- (app_nil_r (str n)) at 1. rewrite (lstrip_text_start _ _ (str_nonempty n) H).
  rewrite app_nil_r. apply (rstrip_text_end [] _ (str_nonempty n) H).
Qed.

Lemma not_slash_run (w : pystr) : ~ In (chr "/") w -> forallb not_slash w = true.
Proof.
  intros H. apply forallb_forall. intros c Hc. unfold not_slash.
  destruct (N.eqb c (chr "/")) eqn:E; [|reflexivity].
  apply N.eqb_eq in E. subst c. contradiction.
Qed.

Lemma opt_literal (w tl : pystr) (p : option cp) (cs : list (nat * pystr)) (k : cont)
    (res : mstate) :
  w <> [] ->
  k {| prev := last_seen p w; rest := tl; caps := cs |} = Some res ->
  rmatch (opt (seq (map (fun l => Chr (N.eqb l)) w)))
    {| prev := p; rest := w ++ tl; caps := cs |} k = Some res.
Proof.
  intros Hw Hk. unfold opt. cbn [rmatch rest rep_loop]. cbv zeta. cbn [below].
  change (Nat.ltb 0 1) with true. cbv iota.
  rewrite rmatch_literal. cbn [rest].
  assert (E : Nat.ltb (length tl) (length (w ++ tl)) = true).
  { apply Nat.ltb_lt. rewrite length_app. destruct w; [contradiction | cbn [length]; lia]. }
  rewrite E.
  destruct (length (w ++ tl)); cbn [rep_loop]; cbv zeta; cbn [below Nat.ltb Nat.leb or_else];
    rewrite Hk; reflexivity.
Qed.

(** [ISSUE_URL_RE] on the URL of an issue: the groups are the owner, the
    repository and the number. *)
Lemma issue_url_matches (owner name : pystr) (n : N) :
  owner <> [] -> name <> [] -> ~ In (chr "/") owner -> ~ In (chr "/") name ->
  exists m,
    re_match ISSUE_URL_RE
      (strip (lit "https://github.com/" ++ owner ++ lit "/" ++ name ++ lit "/issues/"
              ++ str n)) = Some m
    /\ group_text 1 m = owner /\ group_text 2 m = name /\ group_text 3 m = str n.
Proof.
  intros Ho Hn Hso Hsn.
  assert (Hstrip : strip (lit "https://github.com/" ++ owner ++ lit "/" ++ name
                          ++ lit "/issues/" ++ str n)
                   = lit "https://github.com/" ++ owner ++ lit "/" ++ name
                     ++ lit "/issues/" ++ str n).
  { unfold strip.
    change (lstrip (lit "https://github.com/" ++ owner ++ lit "/" ++ name
                    ++ lit "/issues/" ++ str n))
      with (lit "https://github.com/" ++ owner ++ lit "/" ++ name
            ++ lit "/issues/" ++ str n).
    rewrite !app_assoc. apply rstrip_text_end; [apply str_nonempty|].
    apply str_all, ascii_digit_no_space. }
  rewrite Hstrip. eexists. split.
  - unfold re_match, ISSUE_URL_RE, start_of.
    cbn [seq fold_right rmatch at_bol prev].
    unfold txt at 1. change (lit "https://github.com/") with (lit "http" ++ lit "s://github.com/").
    rewrite <- app_assoc, rmatch_literal.
    change (lit "s://github.com/") with (lit "s" ++ lit "://github.com/").
    rewrite <- app_assoc. unfold txt at 1. apply opt_literal; [discriminate|].
    unfold txt at 1. rewrite rmatch_literal.
    unfold plus at 1. cbn [rmatch rest].
    apply greedy_run; [now apply not_slash_run | reflexivity | rewrite length_app; lia | | ].
    { destruct owner; [contradiction | cbn [length]; lia]. }
    rewrite taken_run. unfold set_cap. cbn [prev rest caps].
    unfold txt at 1. rewrite rmatch_literal.
    unfold plus at 1. cbn [rmatch rest].
    apply greedy_run; [now apply not_slash_run | reflexivity | rewrite length_app; lia | | ].
    { destruct name; [contradiction | cbn [length]; lia]. }
    rewrite taken_run. unfold set_cap. cbn [prev rest caps].
    unfold txt at 1. rewrite rmatch_literal.
    unfold plus at 1, digit. cbn [rmatch rest].
    rewrite <- (app_nil_r (str n)) at 1 2.
    apply greedy_run;
      [ apply str_all; intros d Hd; unfold isdecimal;
        now rewrite ascii_digits_are_decimal
      | exact I | rewrite length_app; lia | | ].
    { pose proof (str_nonempty n). destruct (str n); [contradiction | cbn [length]; lia]. }
    rewrite taken_whole. unfold set_cap. cbn [prev rest caps].
    unfold opt. cbn [rmatch rest rep_loop length]. cbv zeta. cbn [below or_else at_eol rest].
    change (Nat.ltb 0 1) with true. change (Nat.leb 0 0) with true. cbv iota.
    reflexivity.
  - unfold group_text. cbn [group caps lookup_cap Nat.eqb]. repeat split.
Qed.

(** A number is no issue URL. *)
Lemma number_is_no_url (n : N) : re_match ISSUE_URL_RE (str n) = None.
Proof.
  pose proof (str_all (fun c => negb (N.eqb (chr "h") c)) n ascii_digit_no_letter) as H.
  pose proof (str_nonempty n) as Hne.
  destruct (str n) as [|c s]; [contradiction|].
  cbn [forallb] in H. apply andb_prop in H as [H _]. apply negb_true_iff in H.
  unfold re_match, ISSUE_URL_RE, start_of.
  cbn [seq fold_right rmatch at_bol prev]. unfold txt at 1.
  cbn [lit map seq fold_right rmatch rest]. 
  match goal with
  | |- (if N.eqb ?x c then _ else _) = _ => change x with (chr "h")
  end.
  now rewrite H.
Qed.

(** [int] on the text [str n]: [n], unless the text has more digits than
    the limit. *)
Lemma int_of_digits_str (n : N) :
  int_max_str_digits = 0 \/ length (str n) <= int_max_str_digits ->
  int_of_digits (str n) = inl n.
Proof.
  intros Hlimit. unfold int_of_digits. rewrite str_all, int_str.
  - destruct Hlimit as [-> | Hlimit]; [reflexivity|].
    apply Nat.ltb_ge in Hlimit. rewrite Hlimit. now rewrite andb_false_r.
  - intros d H. unfold isdecimal. now rewrite ascii_digits_are_decimal.
Qed.

(** The URL of an issue is parsed back into its repository and its number,
    with no [--repo] or with the repository of the URL as [--repo]. *)
Theorem parse_issue_target_url (owner name : pystr) (n : N) (override : option pystr) :
  owner <> [] -> name <> [] -> ~ In (chr "/") owner -> ~ In (chr "/") name ->
  int_max_str_digits = 0 \/ length (str n) <= int_max_str_digits ->
  override = None \/ override = Some [] \/ override = Some (owner ++ lit "/" ++ name) ->
  parse_issue_target isdigit_char
    (lit "https://github.com/" ++ owner ++ lit "/" ++ name ++ lit "/issues/" ++ str n)
    override
  = inl (owner ++ lit "/" ++ name, n).
Proof.
  intros Ho Hn Hso Hsn Hlimit Hov.
  destruct (issue_url_matches owner name n Ho Hn Hso Hsn) as (m & Hm & H1 & H2 & H3).
  unfold parse_issue_target. rewrite Hm. cbv zeta.
  rewrite H1, H2, H3, (int_of_digits_str n Hlimit). cbn [with_repo].
  destruct Hov as [-> | [-> | ->]]; [reflexivity | reflexivity |].
  destruct (owner ++ lit "/" ++ name) as [|c o] eqn:E; [reflexivity|].
  now rewrite str_eqb_refl.
Qed.

(** A [--repo] that differs from the repository of the URL is refused. *)
Theorem parse_issue_target_url_mismatch (owner name override : pystr) (n : N) :
  owner <> [] -> name <> [] -> ~ In (chr "/") owner -> ~ In (chr "/") name ->
  override <> [] -> override <> owner ++ lit "/" ++ name ->
  parse_issue_target isdigit_char
    (lit "https://github.com/" ++ owner ++ lit "/" ++ name ++ lit "/issues/" ++ str n)
    (Some override)
  = inr (ValueError (lit "--repo " ++ override ++ lit " does not match issue URL repo "
                     ++ owner ++ lit "/" ++ name)).
Proof.
  intros Ho Hn Hso Hsn Hne Hov.
  destruct (issue_url_matches owner name n Ho Hn Hso Hsn) as (m & Hm & H1 & H2 & H3).
  unfold parse_issue_target. rewrite Hm. cbv zeta. rewrite H1, H2.
  destruct override as [|c o]; [contradiction|].
  destruct (str_eqb (c :: o) (owner ++ lit "/" ++ name)) eqn:E; [|reflexivity].
  apply str_eqb_eq in E. contradiction.
Qed.

Lemma int_of_digits_long (n : N) :
  int_max_str_digits <> 0 -> int_max_str_digits < length (str n) ->
  int_of_digits (str n) = inr (DigitLimit int_max_str_digits (length (str n))).
Proof.
  intros Hset Hlong. unfold int_of_digits. rewrite str_all.
  - apply Nat.eqb_neq in Hset. apply Nat.ltb_lt in Hlong. now rewrite Hset, Hlong.
  - intros d H. unfold isdecimal. now rewrite ascii_digits_are_decimal.
Qed.

(** An issue number: with a [--repo] it is parsed back, with the
    repository of [--repo], unless it has more digits than the limit of
    [int], which then raises; without a [--repo] it is refused. *)
Theorem parse_issue_target_number (n : N) :
  (forall override : pystr, override <> [] ->
     int_max_str_digits = 0 \/ length (str n) <= int_max_str_digits ->
     parse_issue_target isdigit_char (str n) (Some override) = inl (override, n))
  /\ (forall override : pystr, override <> [] ->
      int_max_str_digits <> 0 -> int_max_str_digits < length (str n) ->
      parse_issue_target isdigit_char (str n) (Some override)
      = inr (DigitLimit int_max_str_digits (length (str n))))
  /\ parse_issue_target isdigit_char (str n) None
     = inr (ValueError (lit "--repo is required when --issue is a number")).
Proof.
  assert (Hd : isdigit isdigit_char (str n) = true).
  { unfold isdigit. rewrite (str_all isdigit_char n ascii_digits_are_digits).
    pose proof (str_nonempty n). now destruct (str n). }
  unfold parse_issue_target. rewrite strip_str, number_is_no_url, Hd. cbn [negb].
  split; [|split; [|reflexivity]].
  - intros [|c o] Hne Hlimit; [contradiction|]. now rewrite (int_of_digits_str n Hlimit).
  - intros [|c o] Hne Hset Hlong; [contradiction|].
    now rewrite (int_of_digits_long n Hset Hlong).
Qed.

End IssueReferences.

(** ** The command line on the examples *)

Lemma text_no_slash (s : pystr) : forallb not_slash s = true -> ~ In (chr "/") s.
Proof.
  intros H Hin. apply (proj1 (forallb_forall _ _) H) in Hin. discriminate Hin.
Qed.

Lemma ascii_runtime_decimal (d : N) :
  (d < 10)%N -> decimal (PyRuntime := on_ascii) (0x30 + d)%N = Some d.
Proof.
  intros H. cbn [decimal ascii_runtime]. unfold ascii_decimal, between.
  replace (N.leb 0x30 (0x30 + d)) with true by (symmetry; apply N.leb_le; lia).
  replace (N.leb (0x30 + d) 0x39) with true by (symmetry; apply N.leb_le; lia).
  cbn [andb]. f_equal. lia.
Qed.

Lemma ascii_isdigit_digits (d : N) : (d < 10)%N -> ascii_isdigit (0x30 + d)%N = true.
Proof.
  intros H. unfold ascii_isdigit, between.
  apply andb_true_intro. split; apply N.leb_le; lia.
Qed.

Lemma parse_issue_target_respects_override_number :
  parse_issue_target (R := on_ascii) ascii_isdigit (lit "42")
    (Some (lit "langgenius/dify")) = inl (lit "langgenius/dify", 42%N)
  /\ lit "langgenius/dify" = lit "langgenius/dify".
Proof.
  assert (H : parse_issue_target (R := on_ascii) ascii_isdigit (lit "42")
                (Some (lit "langgenius/dify")) = inl (lit "langgenius/dify", 42%N))
    by (vm_compute; reflexivity).
  split; [exact H|].
  apply (parse_issue_target_respects_override (R := on_ascii) ascii_isdigit
           (lit "42") (lit "langgenius/dify") (lit "langgenius/dify") 42%N);
    [discriminate | exact H].
Defined.

Lemma main_dry_run_runs_nothing_dry_run_args :
  arg_apply dry_run_args = false
  /\ ~ In (Run (close_command generic_title_issue
                 (render_comment generic_title_issue (lit "unclear")
                    (unclear_reasons (R := on_ascii) generic_title_issue))))
         (fst (main (R := on_ascii) ascii_isdigit (fun s => s)
                 fetch_generic_title_issue run_ok no_json dry_run_args)).
Proof.
  split; [reflexivity|].
  apply (main_dry_run_runs_nothing (R := on_ascii)). reflexivity.
Defined.

Lemma main_runs_only_the_close_command_apply_args :
  arg_apply apply_args = true
  /\ exists target n issue decision,
       parse_issue_target (R := on_ascii) ascii_isdigit (arg_issue apply_args)
         (arg_repo apply_args) = inl (target, n)
       /\ fetch_generic_title_issue target n = inl issue
       /\ decide (R := on_ascii) issue = inl decision
       /\ action decision = lit "close"
       /\ comment decision <> []
       /\ close_command generic_title_issue
            (render_comment generic_title_issue (lit "unclear")
               (unclear_reasons (R := on_ascii) generic_title_issue))
          = [lit "gh"; lit "issue"; lit "close"; str_int (number issue); lit "-R";
             repo issue; lit "--reason"; lit "not planned"; lit "--comment";
             comment decision].
Proof.
  apply (main_runs_only_the_close_command (R := on_ascii) ascii_isdigit (fun s => s)
           fetch_generic_title_issue run_ok no_json apply_args).
  vm_compute. repeat (first [left; reflexivity | right]).
Defined.

Lemma parse_issue_target_url_dify_42 :
  parse_issue_target (R := on_ascii) ascii_isdigit
    (lit "https://github.com/" ++ lit "langgenius" ++ lit "/" ++ lit "dify"
     ++ lit "/issues/" ++ str 42) None
  = inl (lit "langgenius" ++ lit "/" ++ lit "dify", 42%N).
Proof.
  apply (parse_issue_target_url (R := on_ascii) ascii_isdigit ascii_runtime_decimal
           (lit "langgenius") (lit "dify") 42%N None).
  - discriminate.
  - discriminate.
  - apply (text_no_slash (lit "langgenius")). vm_compute; reflexivity.
  - apply (text_no_slash (lit "dify")). vm_compute; reflexivity.
  - right. apply Nat.leb_le. vm_compute; reflexivity.
  - left. reflexivity.
Defined.

Lemma parse_issue_target_url_mismatch_dify_42 :
  parse_issue_target (R := on_ascii) ascii_isdigit
    (lit "https://github.com/" ++ lit "langgenius" ++ lit "/" ++ lit "dify"
     ++ lit "/issues/" ++ str 42) (Some (lit "langgenius/dify-plugins"))
  = inr (ValueError (lit "--repo " ++ lit "langgenius/dify-plugins"
                     ++ lit " does not match issue URL repo "
                     ++ lit "langgenius" ++ lit "/" ++ lit "dify")).
Proof.
  apply (parse_issue_target_url_mismatch (R := on_ascii) ascii_isdigit
           ascii_runtime_decimal (lit "langgenius") (lit "dify")
           (lit "langgenius/dify-plugins") 42%N).
  - discriminate.
  - discriminate.
  - apply (text_no_slash (lit "langgenius")). vm_compute; reflexivity.
  - apply (text_no_slash (lit "dify")). vm_compute; reflexivity.
  - discriminate.
  - discriminate.
Defined.

Lemma parse_issue_target_number_42 :
  parse_issue_target (R := on_ascii) ascii_isdigit (str 42)
    (Some (lit "langgenius/dify")) = inl (lit "langgenius/dify", 42%N)
  /\ parse_issue_target (R := on_ascii) ascii_isdigit (str 42) None
     = inr (ValueError (lit "--repo is required when --issue is a number")).
Proof.
  destruct (parse_issue_target_number (R := on_ascii) ascii_isdigit
              ascii_runtime_decimal ascii_isdigit_digits 42%N) as (Hsome & _ & Hnone).
  split; [|exact Hnone]. apply Hsome; [discriminate|].
  right. apply Nat.leb_le. vm_compute; reflexivity.
Defined.
